(* ====================================================================== *)
(*  n-dop : simulation/util/data_base.py                                   *)
(*                                                                         *)
(*  A shallow embedding of the data layer (DataBase / DataBaseHDD / WOA /  *)
(*  WOD, init_data_base, Family) and of the two-group block-correlation    *)
(*  algebra of class WOD, with the properties stated about them.           *)
(*                                                                         *)
(*  Conventions of the embedding                                           *)
(*   - Python floats are idealised as real numbers (Stdlib R, given its    *)
(*     MathComp field and order structure below).  A float operation       *)
(*     whose result is nan or an infinity (log of a non-positive number,   *)
(*     division by zero) yields [None] in the type [float]; numpy only     *)
(*     warns there and goes on computing, so this is a value and not an    *)
(*     exception.                                                          *)
(*   - Python exceptions are the constructors of [exn]; a function that    *)
(*     can raise returns a [result].                                       *)
(*   - numpy arrays are a shape together with a row-major buffer.          *)
(*   - the caches are explicit stores threaded through a state monad.      *)
(* ====================================================================== *)

From Stdlib Require Import Reals Epsilon FunctionalExtensionality.
From Stdlib Require Import String Ascii.
From HB Require Import structures.
From mathcomp Require Import boot order algebra.

Set Implicit Arguments.
Unset Strict Implicit.
Unset Printing Implicit Defensive.

Import Order.TTheory GRing.Theory Num.Theory.

(* Real-number expressions are read with the MathComp ring notations. *)
Bind Scope ring_scope with R.
Arguments ln _%_ring_scope.

(* ---------------------------------------------------------------------- *)
(*  Part 0.  The real numbers as a MathComp real field                     *)
(* ---------------------------------------------------------------------- *)

Module RealField.

Definition Reqb (x y : R) : bool := if Req_dec_T x y then true else false.

Lemma ReqbP : Equality.axiom Reqb.
Proof. by move=> x y; rewrite /Reqb; case: Req_dec_T => h; constructor. Qed.

HB.instance Definition _ := hasDecEq.Build R ReqbP.

Definition Rpick (P : pred R) (_ : nat) : option R :=
  let x := epsilon (inhabits R0) (fun x => is_true (P x)) in
  if P x then Some x else None.

Lemma Rpick_some P n x : Rpick P n = Some x -> P x.
Proof. by rewrite /Rpick; case: ifP => // Px [<-]. Qed.

Lemma Rpick_ex (P : pred R) : (exists x, P x) -> exists n, Rpick P n.
Proof.
move=> exP; exists 0%N; rewrite /Rpick.
by rewrite (epsilon_spec (inhabits R0) (fun x => is_true (P x)) exP).
Qed.

Lemma Rpick_ext (P Q : pred R) : P =1 Q -> Rpick P =1 Rpick Q.
Proof.
move=> ePQ n; rewrite /Rpick.
have -> : (fun x => is_true (P x)) = (fun x => is_true (Q x)).
  by apply: functional_extensionality => x; rewrite ePQ.
by rewrite ePQ.
Qed.

HB.instance Definition _ := hasChoice.Build R Rpick_some Rpick_ex Rpick_ext.

Lemma RplusA : associative Rplus.
Proof. by move=> x y z; rewrite Rplus_assoc. Qed.

HB.instance Definition _ :=
  GRing.isZmodule.Build R RplusA Rplus_comm Rplus_0_l Rplus_opp_l.

Lemma RmultA : associative Rmult.
Proof. by move=> x y z; rewrite Rmult_assoc. Qed.

Lemma R1_neq0 : R1 != R0.
Proof. by apply/eqP; exact: R1_neq_R0. Qed.

HB.instance Definition _ :=
  GRing.Zmodule_isComNzRing.Build R RmultA Rmult_comm Rmult_1_l
    Rmult_plus_distr_r R1_neq0.

Lemma RinvL (x : R) : x != R0 -> Rmult (Rinv x) x = R1.
Proof. by move=> /eqP x0; apply: Rinv_l. Qed.

HB.instance Definition _ := GRing.ComNzRing_isField.Build R RinvL Rinv_0.

Definition Rleb (x y : R) : bool := if Rle_dec x y then true else false.
Definition Rltb (x y : R) : bool := if Rlt_dec x y then true else false.

Lemma RlebP x y : reflect (Rle x y) (Rleb x y).
Proof. by rewrite /Rleb; case: Rle_dec => h; constructor. Qed.

Lemma RltbP x y : reflect (Rlt x y) (Rltb x y).
Proof. by rewrite /Rltb; case: Rlt_dec => h; constructor. Qed.

Ltac to_stdlib :=
  rewrite /GRing.add /GRing.opp /GRing.zero /GRing.mul /GRing.one /=.

Lemma Rleb0_add (x y : R) : Rleb R0 x -> Rleb R0 y -> Rleb R0 (Rplus x y).
Proof.
by move=> /RlebP hx /RlebP hy; apply/RlebP; exact: Rplus_le_le_0_compat.
Qed.

Lemma Rleb0_mul (x y : R) : Rleb R0 x -> Rleb R0 y -> Rleb R0 (Rmult x y).
Proof. by move=> /RlebP hx /RlebP hy; apply/RlebP; exact: Rmult_le_pos. Qed.

Lemma Rleb0_anti (x : R) : Rleb R0 x -> Rleb x R0 -> x = R0.
Proof. by move=> /RlebP hx /RlebP hy; exact: Rle_antisym. Qed.

Lemma Rleb_sub (x y : R) : Rleb R0 (Rplus y (Ropp x)) = Rleb x y.
Proof. by apply/RlebP/RlebP => h; Lra.lra. Qed.

Lemma Rleb0_total (x : R) : Rleb R0 x || Rleb x R0.
Proof.
apply/orP; case: (Rle_dec R0 x) => h; [left|right]; apply/RlebP => //.
by Lra.lra.
Qed.

Lemma Rge0_abs (x : R) : Rleb R0 x -> Rabs x = x.
Proof. by move=> /RlebP h; exact: Rabs_pos_eq. Qed.

Lemma Rltb_def (x y : R) : Rltb x y = (y != x) && Rleb x y.
Proof.
apply/RltbP/andP => [h|[/eqP h /RlebP h']]; last by Lra.lra.
by split; [apply/eqP; Lra.lra | apply/RlebP; Lra.lra].
Qed.

HB.instance Definition _ := Num.IntegralDomain_isLeReal.Build R
  Rleb0_add Rleb0_mul Rleb0_anti Rleb_sub Rleb0_total Rabs_Ropp Rge0_abs
  Rltb_def.

End RealField.

HB.export RealField.
Export (hints) RealField.

Local Open Scope ring_scope.

(* Bridges between the MathComp and the Stdlib readings of the order. *)
Lemma RltP (x y : R) : reflect (Rlt x y) (x < y).
Proof. exact: RealField.RltbP. Qed.

Lemma RleP (x y : R) : reflect (Rle x y) (x <= y).
Proof. exact: RealField.RlebP. Qed.


(* ---------------------------------------------------------------------- *)
(*  Part 1.  Exceptions, results, floats                                   *)
(* ---------------------------------------------------------------------- *)

(* The exceptions the modelled code raises.  SingularMatrixError is
   util.math.matrix.SingularMatrixError; its message is built from the
   correlation parameters, which the constructor carries.  LinAlgError is
   numpy.linalg.LinAlgError, raised by the inverse of a singular matrix. *)
Inductive exn : Type :=
| SingularMatrixError of R * R * R
| LinAlgError
| AssertionError
| ValueError of string
| AttributeError of string
| IndexError
| KeyError of string
| TypeError
| NotImplementedError of string.

Inductive result (A : Type) : Type :=
| Ok of A
| Raise of exn.

Arguments Ok {A} _.
Arguments Raise {A} _.

Definition rbind {A B : Type} (x : result A) (f : A -> result B) : result B :=
  match x with
  | Ok a => f a
  | Raise e => Raise e
  end.

Notation "x <-r e1 ; e2" := (rbind e1 (fun x => e2))
  (at level 100, e1 at next level, right associativity).
Notation "e1 ;;r e2" := (rbind e1 (fun _ => e2))
  (at level 100, right associativity).

(* A float: [Some x] is the finite value x, [None] is nan or an infinity. *)
Definition float : Type := option R.

Definition fadd (x y : float) : float :=
  if x is Some u then if y is Some v then Some (u + v) else None else None.

Definition fmul (x y : float) : float :=
  if x is Some u then if y is Some v then Some (u * v) else None else None.

(* x / y on floats: numpy yields inf or nan (and a warning) when y is 0. *)
Definition fdiv (x y : R) : float := if y == 0 then None else Some (x / y).

(* np.log: nan below 0 and -inf at 0 (a warning, no exception). *)
Definition np_log (x : R) : float := if 0 < x then Some (ln x) else None.

(* ---------------------------------------------------------------------- *)
(*  Part 2.  WOD: correlation methods for the P3 correlation               *)
(* ---------------------------------------------------------------------- *)

Section Correlation.

(* self.m_dop and self.m_po4: the sizes of the two groups of points. *)
Variables (m_dop m_po4 : nat).

(* (1+(n-1)*a) * (1+(m-1)*b) - n*m*c**2 *)
Definition regularity_factor (a b c : R) : R :=
  let n := m_dop%:R in
  let m := m_po4%:R in
  (1 + (n - 1) * a) * (1 + (m - 1) * b) - n * m * c ^+ 2.

Definition check_regularity (correlation_parameters : R * R * R) : result unit :=
  let: (a, b, c) := correlation_parameters in
  if regularity_factor a b c <= 0
  then Raise (SingularMatrixError correlation_parameters)
  else Ok tt.

Definition ln_det_correlation_matrix (correlation_parameters : R * R * R)
  : result float :=
  let: (a, b, c) := correlation_parameters in
  let n := m_dop%:R in
  let m := m_po4%:R in
  check_regularity correlation_parameters ;;r
  Ok (fadd (fadd (fmul (Some (n - 1)) (np_log (1 - a)))
                 (fmul (Some (m - 1)) (np_log (1 - b))))
           (np_log ((1 + (n - 1) * a) * (1 + (m - 1) * b) - n * m * c ^+ 2))).

(* values[:split_index] and values[split_index:], each reduced to x' x
   (projected_value_index 0) or to its sum (projected_value_index 1); the
   values are a 1-D array here, and util.math.matrix.convert_to_matrix
   makes it a column matrix, so that value_matrix.T * value_matrix is the
   1x1 matrix of the sum of squares. *)
Definition sum_squares (value : seq R) : R := \sum_(x <- value) x * x.
Definition sum_values (value : seq R) : R := \sum_(x <- value) x.

Definition project_index (values : seq R) (split_index : nat)
  (projected_value_index : nat) : result (R * R) :=
  let values0 := take split_index values in
  let values1 := drop split_index values in
  match projected_value_index with
  | 0%N => Ok (sum_squares values0, sum_squares values1)
  | 1%N => Ok (sum_values values0, sum_values values1)
  | _ => Raise (ValueError
      "Unknown projected_value_index: projected_value_index must be 0, 1 or None.")
  end.

(* project(values, split_index) with projected_value_index=None *)
Definition project (values : seq R) (split_index : nat)
  : result ((R * R) * (R * R)) :=
  values_squared <-r project_index values split_index 0 ;
  values_summed <-r project_index values split_index 1 ;
  Ok (values_squared, values_summed).

(* np.matrix of size 2x2 *)
Record mat2 : Type := Mat2 { m00 : R; m01 : R; m10 : R; m11 : R }.

Definition add2 (X Y : mat2) : mat2 :=
  Mat2 (m00 X + m00 Y) (m01 X + m01 Y) (m10 X + m10 Y) (m11 X + m11 Y).

Definition mul2 (X Y : mat2) : mat2 :=
  Mat2 (m00 X * m00 Y + m01 X * m10 Y) (m00 X * m01 Y + m01 X * m11 Y)
       (m10 X * m00 Y + m11 X * m10 Y) (m10 X * m01 Y + m11 X * m11 Y).

Definition det2 (X : mat2) : R := m00 X * m11 X - m01 X * m10 X.

(* The inverse of a regular 2x2 matrix: the adjugate over the determinant. *)
Definition inv2_val (X : mat2) : mat2 :=
  Mat2 (m11 X / det2 X) (- m01 X / det2 X)
       (- m10 X / det2 X) (m00 X / det2 X).

(* X.I : numpy.linalg.inv, which raises LinAlgError on a singular matrix *)
Definition inv2 (X : mat2) : result mat2 :=
  if det2 X == 0 then Raise LinAlgError else Ok (inv2_val X).

(* s.T * X * s for the column matrix s of the two sums *)
Definition quad2 (s : R * R) (X : mat2) : R :=
  let r0 := s.1 * m00 X + s.2 * m10 X in
  let r1 := s.1 * m01 X + s.2 * m11 X in
  r0 * s.1 + r1 * s.2.

Definition projected_product_inverse_correlation_matrix_both_sides
  (factor_projected : (R * R) * (R * R)) (correlation_parameters : R * R * R)
  : result float :=
  let: (factor_squared, factor_summed) := factor_projected in
  let: (a, b, c) := correlation_parameters in
  let n := m_dop%:R in
  let m := m_po4%:R in
  check_regularity correlation_parameters ;;r
  let product :=
    fadd (fdiv factor_squared.1 (1 - a)) (fdiv factor_squared.2 (1 - b)) in
  let A := Mat2 a c c b in
  let W := Mat2 (1 - a) 0 0 (1 - b) in
  let D := Mat2 n 0 0 m in
  let H := add2 W (mul2 D A) in
  WI <-r inv2 W ;
  HI <-r inv2 H ;
  WI' <-r inv2 W ;
  let core := mul2 (mul2 (mul2 WI A) HI) WI' in
  Ok (fadd product (Some (quad2 factor_summed core))).

End Correlation.

(* ---------------------------------------------------------------------- *)
(*  Part 3.  The correlation matrix the P3 methods stand for               *)
(* ---------------------------------------------------------------------- *)

(* The (n+m)x(n+m) two-group block correlation matrix, entry by entry:
   1 on the diagonal, a between two different points of the first group
   (indices below n), b between two different points of the second group,
   c between a point of one group and a point of the other.  None of the
   code builds it; it is what the closed forms are compared with. *)
Definition correlation_matrix (n m : nat) (a b c : R) : 'M[R]_(n + m) :=
  \matrix_(i, j)
     if i == j then 1
     else if (i < n)%N && (j < n)%N then a
     else if (n <= i)%N && (n <= j)%N then b
     else c.

(* A 1-D array of length k as a column matrix. *)
Definition column (k : nat) (x : seq R) : 'cV[R]_k := \col_(i < k) nth 0 x i.

(* x' Sigma^-1 x, computed with the explicit matrix and its inverse. *)
Definition brute_force_product (n m : nat) (a b c : R) (x : seq R) : R :=
  ((column (n + m) x)^T *m invmx (correlation_matrix n m a b c)
     *m column (n + m) x) 0 0.

(* The closed form of x' Sigma^-1 x in the code's vocabulary: the first
   product part minus summed' * (W^-1 A H^-1) * summed. *)
Definition closed_form_product (n m : nat) (a b c : R)
  (factor_projected : (R * R) * (R * R)) : R :=
  let: (factor_squared, factor_summed) := factor_projected in
  let A := Mat2 a c c b in
  let W := Mat2 (1 - a) 0 0 (1 - b) in
  let D := Mat2 n%:R 0 0 m%:R in
  let H := add2 W (mul2 D A) in
  factor_squared.1 / (1 - a) + factor_squared.2 / (1 - b)
  - quad2 factor_summed (mul2 (mul2 (inv2_val W) A) (inv2_val H)).

Section BlockMatrices.

Variable F : fieldType.

(* The same matrix over any field, as a block matrix. *)
Definition block_correlation_matrix (n m : nat) (a b c : F) : 'M[F]_(n + m) :=
  block_mx ((1 - a)%:M + const_mx a) (const_mx c)
           (const_mx c) ((1 - b)%:M + const_mx b).

(* The sum of the entries of a column. *)
Definition sumv (p : nat) (v : 'cV[F]_p) : F := \sum_i v i 0.

End BlockMatrices.

(* ---------------------------------------------------------------------- *)
(*  Part 4.  numpy arrays                                                  *)
(* ---------------------------------------------------------------------- *)

HB.instance Definition _ := hasDecEq.Build string String.eqb_spec.

Local Open Scope nat_scope.

(* An array is its shape and its buffer in row-major order. *)
Record ndarray (T : Type) : Type := NdArray { shape : seq nat; data : seq T }.

Arguments NdArray {T} _ _.
Arguments shape {T} _.
Arguments data {T} _.

Section Arrays.

Variable T : Type.
Implicit Types (a : ndarray T) (p i : nat).

Definition ndim a : nat := size (shape a).

(* numpy keeps as many elements as the shape says. *)
Definition well_formed a : bool := size (data a) == \prod_(d <- shape a) d.

(* a.shape[i] for i >= 0 *)
Definition shape_at a i : result nat :=
  if i < ndim a then Ok (nth 0 (shape a) i) else Raise IndexError.

(* a.shape[-1] *)
Definition shape_last a : result nat :=
  if 0 < ndim a then Ok (last 0 (shape a)) else Raise IndexError.

(* the shape without its last axis *)
Definition lead_shape a : seq nat := take (ndim a).-1 (shape a).

(* The 1-D sections of the array along its last axis, in buffer order: for
   a 2-D array, its rows. *)
Definition rows a : seq (seq T) :=
  reshape (nseq (\prod_(d <- lead_shape a) d) (last 0 (shape a))) (data a).

(* a[(slice(None),) * (a.ndim - 1) + (slice(p),)], for a.ndim >= 1: the
   first p entries along the last axis. *)
Definition slice_last p a : ndarray T :=
  NdArray (rcons (lead_shape a) (minn p (last 0 (shape a))))
          (flatten [seq take p r | r <- rows a]).

(* a[index] = value for a boolean array index: the entries of a where index
   is True become value; index must have the shape of a. *)
Definition setitem_mask a (index : ndarray bool) (value : T)
  : result (ndarray T) :=
  if shape index == shape a
  then Ok (NdArray (shape a)
             [seq if xb.2 then value else xb.1 | xb <- zip (data a) (data index)])
  else Raise IndexError.

(* a with value at the entries where mask is False: what
   a[np.logical_not(mask)] = value makes of a. *)
Definition masked_with (value : T) a (mask : ndarray bool) : ndarray T :=
  NdArray (shape a)
    [seq if ~~ xb.2 then value else xb.1 | xb <- zip (data a) (data mask)].

(* a op b entry by entry, for two arrays of one shape (broadcasting between
   different shapes is not modelled: it is an error here). *)
Definition elementwise (op : T -> T -> T) a (b : ndarray T)
  : result (ndarray T) :=
  if shape a == shape b
  then Ok (NdArray (shape a) [seq op xy.1 xy.2 | xy <- zip (data a) (data b)])
  else Raise (ValueError "operands could not be broadcast together").

End Arrays.

(* np.logical_not *)
Definition logical_not (mask : ndarray bool) : ndarray bool :=
  NdArray (shape mask) [seq ~~ b | b <- data mask].

(* ---------------------------------------------------------------------- *)
(*  Part 5.  The classes of data_base.py and their attributes              *)
(* ---------------------------------------------------------------------- *)

Inductive py_class : Type :=
| DataBase
| DataBaseHDD
| WOA
| WOD_Base
| WOD
| WOD_TMM
| OLDWOD
| OLDWOD_TMM.

Definition py_class_index (c : py_class) : nat :=
  match c with
  | DataBase => 0 | DataBaseHDD => 1 | WOA => 2 | WOD_Base => 3
  | WOD => 4 | WOD_TMM => 5 | OLDWOD => 6 | OLDWOD_TMM => 7
  end.

Definition py_class_eqb (c d : py_class) : bool :=
  py_class_index c == py_class_index d.

Lemma py_class_eqP : Equality.axiom py_class_eqb.
Proof.
move=> c d; apply: (iffP eqP) => [|-> //].
by case: c; case: d.
Qed.

HB.instance Definition _ := hasDecEq.Build py_class py_class_eqP.

(* class C(B1, B2): the bases as the class statement lists them *)
Definition bases (c : py_class) : seq py_class :=
  match c with
  | DataBase => [::]
  | DataBaseHDD => [:: DataBase]
  | WOA => [:: DataBaseHDD]
  | WOD_Base => [:: DataBase]
  | WOD => [:: DataBaseHDD; WOD_Base]
  | WOD_TMM => [:: WOD_Base]
  | OLDWOD => [:: WOD]
  | OLDWOD_TMM => [:: WOD_TMM]
  end.

(* The method resolution order of each class (Python's C3 linearisation of
   the bases above), without the final class object. *)
Definition mro (c : py_class) : seq py_class :=
  match c with
  | DataBase => [:: DataBase]
  | DataBaseHDD => [:: DataBaseHDD; DataBase]
  | WOA => [:: WOA; DataBaseHDD; DataBase]
  | WOD_Base => [:: WOD_Base; DataBase]
  | WOD => [:: WOD; DataBaseHDD; WOD_Base; DataBase]
  | WOD_TMM => [:: WOD_TMM; WOD_Base; DataBase]
  | OLDWOD => [:: OLDWOD; WOD; DataBaseHDD; WOD_Base; DataBase]
  | OLDWOD_TMM => [:: OLDWOD_TMM; WOD_TMM; WOD_Base; DataBase]
  end.

Local Open Scope string_scope.

(* The names each class body defines (methods and properties). *)
Definition class_attributes (c : py_class) : seq string :=
  match c with
  | DataBase =>
      [:: "__init__"; "__str__"; "f_boxes_cache_filename";
          "df_boxes_cache_filename"; "f_boxes_calculate"; "f_boxes";
          "df_boxes_calculate"; "df_boxes"; "f_calculate"; "f";
          "df_calculate"; "df"; "m"; "results_calculate"; "results";
          "deviations_calculate"; "deviations"; "inverse_deviations";
          "variances"; "inverse_variances"; "average_variance";
          "inverse_average_variance"; "deviations_boxes";
          "inverse_deviations_boxes"]
  | DataBaseHDD =>
      [:: "__init__"; "F_cache_filename"; "DF_cache_filename"; "f"; "df"]
  | WOA =>
      [:: "__init__"; "_get_data_with_annual_averaged"; "f_calculate";
          "df_calculate"; "mean_deviations_boxes"; "deviations_calculate";
          "mask"; "results_boxes"; "results_calculate"; "diff_boxes"]
  | WOD_Base =>
      [:: "__init__"; "points"; "m_dop"; "m_po4"; "m";
          "correlation_matrix_calculate"; "correlation_matrix";
          "correlation_matrix_cholesky_decomposition_calculate";
          "correlation_matrix_cholesky_decomposition"]
  | WOD =>
      [:: "__init__"; "f_calculate"; "df_calculate"; "deviations_calculate";
          "points_calculate"; "results_calculate";
          "correlation_matrix_calculate";
          "correlation_matrix_cholesky_decomposition_calculate";
          "correlation_parameters"; "check_regularity";
          "ln_det_correlation_matrix"; "project";
          "projected_product_inverse_correlation_matrix_both_sides";
          "diff"; "convert_to_boxes"]
  | WOD_TMM =>
      [:: "__init__"; "__str__"; "points_near_water_mask_calculate";
          "points_near_water_mask"; "points_near_water_mask_concatenated";
          "points_calculate"; "results_calculate"; "deviations_calculate";
          "f_calculate"; "df_calculate"; "correlation_matrix_calculate";
          "correlation_matrix_cholesky_decomposition_calculate"]
  | OLDWOD =>
      [:: "deviations_calculate";
          "correlation_matrix_cholesky_decomposition_calculate"]
  | OLDWOD_TMM =>
      [:: "__init__";
          "correlation_matrix_cholesky_decomposition_calculate"]
  end.

(* The attributes the __init__ of each class sets on the object itself
   (before or after it calls the __init__ of the next class). *)
Definition init_attributes (c : py_class) : seq string :=
  match c with
  | DataBase =>
      [:: "_f_boxes_cache_filename"; "_df_boxes_cache_filename";
          "default_boxes_t_dim"; "model"; "hdd_cache"; "memory_cache";
          "memory_cache_with_parameters"]
  | DataBaseHDD => [:: "_F_cache_filename"; "_DF_cache_filename"]
  | WOA => [:: "ANNUAL_THRESHOLD_INDEX"]
  | WOD_TMM => [:: "max_land_boxes"; "wod"; "lsm"]
  | OLDWOD_TMM => [:: "wod"]
  | WOD_Base | WOD | OLDWOD => [::]
  end.

Local Close Scope string_scope.

(* Every __init__ calls the next one of the method resolution order, so an
   object of class c has the attributes all of them set. *)
Definition instance_attributes (c : py_class) : seq string :=
  flatten [seq init_attributes k | k <- mro c].

(* Where the lookup of an attribute of an object ends. *)
Inductive attribute : Type :=
| ClassAttribute of py_class
| InstanceAttribute.

(* self.name on an object of class c: the first class of the method
   resolution order that defines the name, else the object's own
   attributes, else AttributeError.  No class defines __getattr__.  The
   names that come with every Python object (__class__, __dict__, ...),
   all of them between double underscores, are left out. *)
Definition getattr (c : py_class) (name : string) : result attribute :=
  match [seq k <- mro c | name \in class_attributes k] with
  | k :: _ => Ok (ClassAttribute k)
  | [::] =>
      if name \in instance_attributes c then Ok InstanceAttribute
      else Raise (AttributeError name)
  end.

Definition hasattr (c : py_class) (name : string) : bool :=
  if getattr c name is Ok _ then true else false.

(* WOD.correlation_parameters: the file name constant is imported, then
   self.get_file is looked up and called with the parameters and the file
   name.  What the import gives and what a call of the attribute would
   return are parameters. *)
Definition WOD_correlation_parameters (A : Type) (c : py_class)
  (filename : result string) (call_get_file : attribute -> string -> result A)
  : result A :=
  name <-r filename ;
  get_file <-r getattr c "get_file"%string ;
  call_get_file get_file name.

(* ---------------------------------------------------------------------- *)
(*  Part 6.  The caches and the methods of DataBase and DataBaseHDD        *)
(* ---------------------------------------------------------------------- *)

Definition DEFAULT_BOXES_T_DIM : nat := 12.

(* A dict as a function from its keys. *)
Definition update (K : eqType) (V : Type) (k : K) (v : V) (f : K -> option V)
  : K -> option V :=
  fun k' => if k' == k then Some v else f k'.

Section DataBase.

(* The type of one model parameter and of one array element (floats; what
   follows uses no arithmetic on them). *)
Variable param : eqType.
Variable T : Type.

Notation array := (ndarray T).

(* One evaluation of the model, as the log of the state records it. *)
Inductive model_call : Type :=
| Call_f_calculate of seq param
| Call_df_calculate of seq param
| Call_f_boxes of seq param & nat
| Call_df_boxes of seq param & nat.

(* The state of one data base object.
   - hdd_cache: self.hdd_cache, keyed by the parameters and a file name;
   - memory_cache_with_parameters: the parameter vector whose values are
     resident (if any) and its values by name;
   - results_entry, deviations_entry, results_boxes_entry, mask_entry and
     mean_deviations_boxes_entry: the entries 'results', 'deviations',
     'results_boxes', 'mask' and 'mean_deviations_boxes' of
     self.memory_cache (the array objects themselves: an in-place change
     of one of them is a change of the entry);
   - model_calls: the evaluations of the model so far, latest first. *)
Record db_state : Type := DbState {
  hdd_cache : seq param * string -> option array;
  memory_cache_with_parameters : option (seq param) * (string -> option array);
  results_entry : option array;
  deviations_entry : option array;
  results_boxes_entry : option array;
  mask_entry : option (ndarray bool);
  mean_deviations_boxes_entry : option array;
  model_calls : seq model_call
}.

Definition set_hdd_cache c (st : db_state) : db_state :=
  DbState c (memory_cache_with_parameters st)
    (results_entry st) (deviations_entry st)
    (results_boxes_entry st) (mask_entry st)
    (mean_deviations_boxes_entry st) (model_calls st).

Definition set_memory_cache_with_parameters c (st : db_state) : db_state :=
  DbState (hdd_cache st) c
    (results_entry st) (deviations_entry st)
    (results_boxes_entry st) (mask_entry st)
    (mean_deviations_boxes_entry st) (model_calls st).

Definition set_results_entry c (st : db_state) : db_state :=
  DbState (hdd_cache st) (memory_cache_with_parameters st)
    c (deviations_entry st)
    (results_boxes_entry st) (mask_entry st)
    (mean_deviations_boxes_entry st) (model_calls st).

Definition set_deviations_entry c (st : db_state) : db_state :=
  DbState (hdd_cache st) (memory_cache_with_parameters st)
    (results_entry st) c
    (results_boxes_entry st) (mask_entry st)
    (mean_deviations_boxes_entry st) (model_calls st).

Definition set_results_boxes_entry c (st : db_state) : db_state :=
  DbState (hdd_cache st) (memory_cache_with_parameters st)
    (results_entry st) (deviations_entry st)
    c (mask_entry st)
    (mean_deviations_boxes_entry st) (model_calls st).

Definition set_mask_entry c (st : db_state) : db_state :=
  DbState (hdd_cache st) (memory_cache_with_parameters st)
    (results_entry st) (deviations_entry st)
    (results_boxes_entry st) c
    (mean_deviations_boxes_entry st) (model_calls st).

Definition set_mean_deviations_boxes_entry c (st : db_state) : db_state :=
  DbState (hdd_cache st) (memory_cache_with_parameters st)
    (results_entry st) (deviations_entry st)
    (results_boxes_entry st) (mask_entry st)
    c (model_calls st).

Definition log_call (c : model_call) (st : db_state) : db_state :=
  DbState (hdd_cache st) (memory_cache_with_parameters st)
    (results_entry st) (deviations_entry st)
    (results_boxes_entry st) (mask_entry st)
    (mean_deviations_boxes_entry st) (c :: model_calls st).

(* A method: it reads and changes the state, and returns or raises; the
   changes made before an exception stay. *)
Definition M (A : Type) : Type := db_state -> result A * db_state.

Definition ret {A : Type} (x : A) : M A := fun st => (Ok x, st).

Definition raise {A : Type} (e : exn) : M A := fun st => (Raise e, st).

Definition bind {A B : Type} (c : M A) (f : A -> M B) : M B :=
  fun st =>
    match c st with
    | (Ok x, st') => f x st'
    | (Raise e, st') => (Raise e, st')
    end.

Definition get_state : M db_state := fun st => (Ok st, st).

Definition modify_state (f : db_state -> db_state) : M unit :=
  fun st => (Ok tt, f st).

Definition lift_result {A : Type} (r : result A) : M A := fun st => (r, st).

(* the assert statement *)
Definition assert_ (b : bool) : M unit :=
  if b then ret tt else raise AssertionError.

Notation "x <- c1 ;; c2" := (bind c1 (fun x => c2))
  (at level 100, c1 at next level, right associativity).
Notation "c1 ;;; c2" := (bind c1 (fun _ => c2))
  (at level 100, right associativity).

(* Modelled from the spec: simulation.util.value_cache.Cache, the class of
   self.hdd_cache, is not among the sources.  Section 4.1: get_value looks
   the key up and returns the payload on a hit; on a miss it computes the
   value with the calculation function, writes it to every tier and
   returns it; save_value overwrites the entry.  The memory tier and the
   persistent tier, which are written together, are one store here, and
   the options derivative_used, save_also_txt, use_memmap and
   as_shared_array, which do not change the value, are left out. *)
Definition hdd_save_value (parameters : seq param) (filename : string)
  (value : array) : M unit :=
  modify_state (fun st =>
    set_hdd_cache (update (parameters, filename) value (hdd_cache st)) st).

Definition hdd_get_value (parameters : seq param) (filename : string)
  (calculation_function : seq param -> M array) : M array :=
  st <- get_state ;;
  match hdd_cache st (parameters, filename) with
  | Some value => ret value
  | None =>
      value <- calculation_function parameters ;;
      hdd_save_value parameters filename value ;;;
      ret value
  end.

(* Modelled from the spec: simulation.util.value_cache.MemoryCache, the
   class of self.memory_cache_with_parameters, is not among the sources.
   Section 2: it is keyed by the parameter vector and a name, and holds the
   values of one parameter vector at a time: a request for another vector
   drops the resident values. *)
Definition memory_save_value (parameters : seq param) (name : string)
  (value : array) : M unit :=
  modify_state (fun st =>
    let: (resident, values) := memory_cache_with_parameters st in
    let values' :=
      if resident == Some parameters then values else fun _ => None in
    set_memory_cache_with_parameters
      (Some parameters, update name value values') st).

Definition memory_get_value (parameters : seq param) (name : string)
  (calculation_function : seq param -> M array) : M array :=
  st <- get_state ;;
  let: (resident, values) := memory_cache_with_parameters st in
  match (if resident == Some parameters then values name else None) with
  | Some value => ret value
  | None =>
      value <- calculation_function parameters ;;
      memory_save_value parameters name value ;;;
      ret value
  end.

(* What the object is built from: its file names (the formats of
   simulation/util/constants.py, not among the sources, filled in), the
   number m of its measurements (self.m, memoised), the calculations its
   class implements (f_calculate and df_calculate raise
   NotImplementedError in DataBase itself), the model (self.model.f_boxes
   and self.model.df_boxes, deterministic), and the two library functions
   util.math.interpolate.change_dim and numpy.swapaxes. *)
Variables (F_cache_filename DF_cache_filename : string).
Variables (f_boxes_cache_filename df_boxes_cache_filename : nat -> string).
Variable m : nat.
Variables (subclass_f_calculate subclass_df_calculate : seq param -> array).
Variables (model_f_boxes model_df_boxes : seq param -> nat -> array).
Variable change_dim : array -> nat -> nat -> array.
Variable swapaxes : array -> nat -> nat -> array.

Definition f_calculate (parameters : seq param) : M array :=
  modify_state (log_call (Call_f_calculate parameters)) ;;;
  ret (subclass_f_calculate parameters).

Definition df_calculate (parameters : seq param) : M array :=
  modify_state (log_call (Call_df_calculate parameters)) ;;;
  ret (subclass_df_calculate parameters).

(* --- DataBase: model output on the boxes --- *)

Definition f_boxes_calculate (parameters : seq param) (time_dim : nat)
  : M array :=
  modify_state (log_call (Call_f_boxes parameters time_dim)) ;;;
  ret (model_f_boxes parameters time_dim).

Definition f_boxes (parameters : seq param) (time_dim : nat) : M array :=
  let calculation_time_dim := maxn time_dim DEFAULT_BOXES_T_DIM in
  let calculation_function :=
    fun p => f_boxes_calculate p calculation_time_dim in
  data <- hdd_get_value parameters
            (f_boxes_cache_filename calculation_time_dim)
            calculation_function ;;
  let data :=
    if time_dim < DEFAULT_BOXES_T_DIM then change_dim data 1 time_dim
    else data in
  t <- lift_result (shape_at data 1) ;;
  assert_ (t == time_dim) ;;;
  ret data.

(* for i in range(1, df_boxes.ndim-1): df_boxes = swapaxes(df_boxes, i, i+1) *)
Definition move_axis_1_last (df_boxes : array) : array :=
  foldl (fun d i => swapaxes d i (i + 1)) df_boxes (iota 1 (ndim df_boxes - 2)).

Definition df_boxes_calculate (parameters : seq param) (time_dim : nat)
  : M array :=
  modify_state (log_call (Call_df_boxes parameters time_dim)) ;;;
  ret (move_axis_1_last (model_df_boxes parameters time_dim)).

Definition df_boxes (parameters : seq param) (time_dim : nat) : M array :=
  let calculation_time_dim := maxn time_dim DEFAULT_BOXES_T_DIM in
  let calculation_function :=
    fun p => df_boxes_calculate p calculation_time_dim in
  let filename := df_boxes_cache_filename calculation_time_dim in
  df_boxes <- hdd_get_value parameters filename calculation_function ;;
  n <- lift_result (shape_last df_boxes) ;;
  df_boxes <-
    (if size parameters < n then
       ret (slice_last (size parameters) df_boxes)
     else if n < size parameters then
       df_boxes <- calculation_function parameters ;;
       hdd_save_value parameters filename df_boxes ;;;
       ret df_boxes
     else ret df_boxes) ;;
  let df_boxes :=
    if time_dim < DEFAULT_BOXES_T_DIM then change_dim df_boxes 1 time_dim
    else df_boxes in
  t <- lift_result (shape_at df_boxes 1) ;;
  assert_ (t == time_dim) ;;;
  n <- lift_result (shape_last df_boxes) ;;
  assert_ (n == size parameters) ;;;
  ret df_boxes.

(* --- DataBase: f and df through the memory cache --- *)

Definition DataBase_f (parameters : seq param) : M array :=
  values <- memory_get_value parameters "F" f_calculate ;;
  assert_ ((ndim values == 1) && (nth 0 (shape values) 0 == m)) ;;;
  ret values.

Definition DataBase_df (parameters : seq param) : M array :=
  df <- memory_get_value parameters "DF" df_calculate ;;
  assert_ [&& ndim df == 2, nth 0 (shape df) 0 == m
            & nth 0 (shape df) 1 \in [:: size parameters; size parameters + 1]] ;;;
  n <- lift_result (shape_last df) ;;
  if size parameters < n then
    ret (slice_last (size parameters) df)
  else if n < size parameters then
    df <- df_calculate parameters ;;
    memory_save_value parameters "DF" df ;;;
    ret df
  else ret df.

(* --- DataBaseHDD: f and df through the hdd cache --- *)

Definition DataBaseHDD_f (parameters : seq param) : M array :=
  values <- hdd_get_value parameters F_cache_filename f_calculate ;;
  assert_ ((ndim values == 1) && (nth 0 (shape values) 0 == m)) ;;;
  ret values.

Definition DataBaseHDD_df (parameters : seq param) : M array :=
  df <- hdd_get_value parameters DF_cache_filename df_calculate ;;
  assert_ ((ndim df == 2) && (nth 0 (shape df) 0 == m)) ;;;
  n <- lift_result (shape_last df) ;;
  df <-
    (if size parameters < n then
       ret (slice_last (size parameters) df)
     else if n < size parameters then
       df <- df_calculate parameters ;;
       hdd_save_value parameters DF_cache_filename df ;;;
       ret df
     else ret df) ;;
  t <- lift_result (shape_at df 1) ;;
  assert_ (t == size parameters) ;;;
  ret df.

(* --- self.memory_cache --- *)

(* Modelled from the spec: util.cache.MemoryCache, the class of
   self.memory_cache, is not among the sources.  Section 2: a mapping from
   a name to a lazily computed value; the value is computed once and the
   cached value is returned on later lookups.  An entry is given by its
   field of the state and the setter of that field. *)
Definition memory_cache_get_value {A : Type} (entry : db_state -> option A)
  (set_entry : option A -> db_state -> db_state)
  (calculate_function : M A) : M A :=
  st <- get_state ;;
  match entry st with
  | Some value => ret value
  | None =>
      value <- calculate_function ;;
      modify_state (set_entry (Some value)) ;;;
      ret value
  end.

(* --- DataBase: results and deviations --- *)

Definition DataBase_results_calculate : M array :=
  raise (NotImplementedError "Please implement this method").

Definition DataBase_results (results_calculate : M array) : M array :=
  values <- memory_cache_get_value results_entry set_results_entry
              results_calculate ;;
  assert_ (ndim values == 1) ;;;
  ret values.

Definition DataBase_deviations_calculate : M array :=
  raise (NotImplementedError "Please implement this method").

Definition DataBase_deviations (deviations_calculate : M array) : M array :=
  values <- memory_cache_get_value deviations_entry set_deviations_entry
              deviations_calculate ;;
  assert_ ((ndim values == 1) && (nth 0 (shape values) 0 == m)) ;;;
  ret values.

(* --- WOA --- *)

(* The measurements on the boxes (measurements.all.box.data, not among the
   sources): means(), nobs() > 0 and (variances() / nobs())**(1/2); the
   arithmetic of the array elements; and the selection of
   _get_data_with_annual_averaged, which for the data, the mask and the
   annual factor takes the masked monthly values above the threshold index
   and the masked annual averages below it (numpy indexing, left
   abstract). *)
Variable box_means : array.
Variable box_nobs_positive : ndarray bool.
Variable box_mean_deviations : array.
Variables (sub div : T -> T -> T).
Variables (one one_twelfth : T).
Variable annual_averaged : array -> ndarray bool -> T -> array.

Definition WOA_mask : M (ndarray bool) :=
  memory_cache_get_value mask_entry set_mask_entry (ret box_nobs_positive).

Definition WOA_results_boxes : M array :=
  memory_cache_get_value results_boxes_entry set_results_boxes_entry
    (ret box_means).

Definition WOA_mean_deviations_boxes : M array :=
  memory_cache_get_value mean_deviations_boxes_entry
    set_mean_deviations_boxes_entry (ret box_mean_deviations).

Definition WOA_get_data_with_annual_averaged (data : array)
  (annual_factor : T) : M array :=
  mask <- WOA_mask ;;
  ret (annual_averaged data mask annual_factor).

Definition WOA_f_calculate (parameters : seq param) : M array :=
  f_boxes <- f_boxes parameters 12 ;;
  WOA_get_data_with_annual_averaged f_boxes one.

Definition WOA_df_calculate (parameters : seq param) : M array :=
  df_boxes <- df_boxes parameters 12 ;;
  WOA_get_data_with_annual_averaged df_boxes one.

Definition WOA_deviations_calculate : M array :=
  mean_deviations_boxes <- WOA_mean_deviations_boxes ;;
  WOA_get_data_with_annual_averaged mean_deviations_boxes one_twelfth.

Definition WOA_results_calculate : M array :=
  results_boxes <- WOA_results_boxes ;;
  WOA_get_data_with_annual_averaged results_boxes one.

(* results_boxes is the array object the memory cache holds, and the
   assignment to its masked entries changes that object: the entry of the
   cache is the changed array from then on. *)
Definition WOA_diff_boxes (parameters : seq param)
  (normalize_with_deviation : bool) (no_data_value : T) : M array :=
  results_boxes <- WOA_results_boxes ;;
  mask <- WOA_mask ;;
  results_boxes <-
    lift_result (setitem_mask results_boxes (logical_not mask) no_data_value) ;;
  modify_state (set_results_boxes_entry (Some results_boxes)) ;;;
  f_boxes <- f_boxes parameters 12 ;;
  diff <- lift_result (elementwise sub results_boxes f_boxes) ;;
  if normalize_with_deviation then
    mean_deviations_boxes <- WOA_mean_deviations_boxes ;;
    lift_result (elementwise div diff mean_deviations_boxes)
  else ret diff.

(* --- WOD --- *)

(* The measurements at the points (measurements.all.pw.values, not among
   the sources), concatenated over the two tracers. *)
Variable pw_results : array.
Variable pw_deviations : array.

Definition WOD_results_calculate : M array := ret pw_results.

Definition WOD_deviations_calculate : M array := ret pw_deviations.

(* The methods of the classes that take the parameters and return an array
   (f_calculate and df_calculate are the ones of the object's class). *)
Definition method_of (k : py_class) (name : string)
  : option (seq param -> M array) :=
  match k with
  | DataBase =>
      if name == "f"%string then Some DataBase_f
      else if name == "df"%string then Some DataBase_df
      else if name == "f_boxes"%string then Some (fun p => f_boxes p 12)
      else if name == "df_boxes"%string then Some (fun p => df_boxes p 12)
      else if name == "f_boxes_calculate"%string
      then Some (fun p => f_boxes_calculate p 12)
      else if name == "df_boxes_calculate"%string
      then Some (fun p => df_boxes_calculate p 12)
      else None
  | DataBaseHDD =>
      if name == "f"%string then Some DataBaseHDD_f
      else if name == "df"%string then Some DataBaseHDD_df
      else None
  | WOD =>
      if name == "f_calculate"%string then Some f_calculate
      else if name == "df_calculate"%string then Some df_calculate
      else None
  | _ => None
  end.

(* attribute(parameters): a call of what the lookup of name found; what is
   no method of one array-valued argument raises TypeError. *)
Definition call_attribute (a : attribute) (name : string)
  (parameters : seq param) : M array :=
  match a with
  | ClassAttribute k =>
      if method_of k name is Some method then method parameters
      else raise TypeError
  | InstanceAttribute => raise TypeError
  end.

(* diff = self.results - self.F(parameters): the left operand first, then
   the lookup of F, then its call. *)
Definition WOD_diff (parameters : seq param)
  (normalize_with_deviation : bool) : M array :=
  results <- DataBase_results WOD_results_calculate ;;
  F <- lift_result (getattr WOD "F") ;;
  values <- call_attribute F "F" parameters ;;
  diff <- lift_result (elementwise sub results values) ;;
  if normalize_with_deviation then
    deviations <- DataBase_deviations WOD_deviations_calculate ;;
    lift_result (elementwise div diff deviations)
  else ret diff.

End DataBase.

(* ---------------------------------------------------------------------- *)
(*  The deviations on the boxes                                            *)
(* ---------------------------------------------------------------------- *)

Section DeviationsBoxes.

Variable T : Type.

(* measurements.all.pw.values.deviation_TMM(t_dim=...), not among the
   sources; 1 / x on an array element; util.math.interpolate.change_dim. *)
Variable deviation_TMM : nat -> ndarray T.
Variable inverse : T -> T.
Variable change_dim : ndarray T -> nat -> nat -> ndarray T.

(* Modelled from the spec: util.cache.MemoryCache, the class of
   self.memory_cache, is not among the sources (section 2: the value of a
   name is computed once and returned on later lookups).  These are its
   entries 'deviations_boxes_{time_dim}' and
   'inverse_deviations_boxes_{time_dim}', by time_dim. *)
Record boxes_cache : Type := BoxesCache {
  deviations_boxes_entry : nat -> option (ndarray T);
  inverse_deviations_boxes_entry : nat -> option (ndarray T)
}.

(* the function calculate of deviations_boxes *)
Definition deviations_boxes_calculate (time_dim : nat) : result (ndarray T) :=
  let calculation_time_dim := maxn time_dim DEFAULT_BOXES_T_DIM in
  let data := deviation_TMM calculation_time_dim in
  let data :=
    if time_dim < DEFAULT_BOXES_T_DIM then change_dim data 1 time_dim
    else data in
  t <-r shape_at data 1 ;
  if t == time_dim then Ok data else Raise AssertionError.

Definition deviations_boxes (time_dim : nat) (cache : boxes_cache)
  : result (ndarray T) * boxes_cache :=
  match deviations_boxes_entry cache time_dim with
  | Some value => (Ok value, cache)
  | None =>
      match deviations_boxes_calculate time_dim with
      | Ok value =>
          (Ok value,
           BoxesCache (update time_dim value (deviations_boxes_entry cache))
             (inverse_deviations_boxes_entry cache))
      | Raise e => (Raise e, cache)
      end
  end.

(* lambda: 1 / self.deviations_boxes(time_dim=time_dim) *)
Definition inverse_deviations_boxes (time_dim : nat) (cache : boxes_cache)
  : result (ndarray T) * boxes_cache :=
  match inverse_deviations_boxes_entry cache time_dim with
  | Some value => (Ok value, cache)
  | None =>
      match deviations_boxes time_dim cache with
      | (Ok deviations, cache') =>
          let value :=
            NdArray (shape deviations) [seq inverse x | x <- data deviations] in
          (Ok value,
           BoxesCache (deviations_boxes_entry cache')
             (update time_dim value (inverse_deviations_boxes_entry cache')))
      | (Raise e, cache') => (Raise e, cache')
      end
  end.

(* Every cached array has the time axis of its entry. *)
Definition time_axes_match (cache : boxes_cache) : Prop :=
  forall t a,
    deviations_boxes_entry cache t = Some a
    \/ inverse_deviations_boxes_entry cache t = Some a ->
    shape_at a 1 = Ok t.

End DeviationsBoxes.

(* ---------------------------------------------------------------------- *)
(*  Part 7.  init_data_base and Family                                     *)
(* ---------------------------------------------------------------------- *)

HB.instance Definition _ := hasDecEq.Build ascii Ascii.eqb_spec.

Local Open Scope string_scope.

(* Python strings are strings of ASCII characters here. *)
Definition chars (s : string) : seq ascii := list_ascii_of_string s.

Definition str (cs : seq ascii) : string := string_of_list_ascii cs.

(* the characters ' and the double quote *)
Definition single_quote : ascii := "039"%char.
Definition double_quote : ascii := "034"%char.

Definition ascii_upper (c : ascii) : ascii :=
  let n := nat_of_ascii c in
  if (97 <= n) && (n <= 122) then ascii_of_nat (n - 32) else c.

(* str.upper *)
Definition upper (s : string) : string := str [seq ascii_upper c | c <- chars s].

(* str.startswith *)
Definition startswith (s start : string) : bool := String.prefix start s.

(* str.split(sep) for a separator of one character *)
Fixpoint split_chars (sep : ascii) (cs : seq ascii) : seq (seq ascii) :=
  match cs with
  | [::] => [:: [::]]
  | c :: cs' =>
      if c == sep then [::] :: split_chars sep cs'
      else match split_chars sep cs' with
           | w :: ws => (c :: w) :: ws
           | [::] => [:: [:: c]]
           end
  end.

Definition str_split (s : string) (sep : ascii) : seq string :=
  [seq str w | w <- split_chars sep (chars s)].

(* repr of a str: between single quotes, or between double quotes when the
   string has a single quote and no double quote; the quote, the backslash
   and the characters that do not print are escaped. *)
Definition hex_digit (n : nat) : ascii :=
  nth "0"%char (chars "0123456789abcdef") n.

Definition repr_char (quote c : ascii) : seq ascii :=
  let n := nat_of_ascii c in
  if (c == quote) || (c == "\"%char) then [:: "\"%char; c]
  else if n == 9 then chars "\t"
  else if n == 10 then chars "\n"
  else if n == 13 then chars "\r"
  else if (n < 32) || (n == 127)
  then [:: "\"%char; "x"%char; hex_digit (n %/ 16); hex_digit (n %% 16)]
  else [:: c].

Definition repr (s : string) : string :=
  let quote :=
    if (single_quote \in chars s) && (double_quote \notin chars s)
    then double_quote else single_quote in
  str (quote :: flatten [seq repr_char quote c | c <- chars s] ++ [:: quote]).

(* str(list) of a list of str *)
Definition str_list (l : seq string) : string :=
  "[" ++ String.concat ", " [seq repr x | x <- l] ++ "]".

(* int(s) for a str s: white space around is dropped; then an optional
   sign and decimal digits, with single underscores allowed between
   digits.  (The bound of recent Python versions on the number of digits
   is not modelled.) *)
Definition is_space (c : ascii) : bool :=
  let n := nat_of_ascii c in
  ((9 <= n) && (n <= 13)) || ((28 <= n) && (n <= 32)).

Definition is_digit (c : ascii) : bool :=
  let n := nat_of_ascii c in (48 <= n) && (n <= 57).

Definition strip (cs : seq ascii) : seq ascii :=
  rev (drop (find (predC is_space) (rev cs))
         (rev (drop (find (predC is_space) cs) cs))).

Fixpoint digits_value (acc : nat) (after_digit : bool) (cs : seq ascii)
  : option nat :=
  match cs with
  | [::] => if after_digit then Some acc else None
  | c :: cs' =>
      if is_digit c
      then digits_value (10 * acc + (nat_of_ascii c - 48)) true cs'
      else if (c == "_"%char) && after_digit then digits_value acc false cs'
      else None
  end.

Definition int_literal (cs : seq ascii) : option int :=
  match strip cs with
  | c :: cs' =>
      if c == "-"%char then omap (fun n => (- n%:Z)%R) (digits_value 0 false cs')
      else if c == "+"%char then omap Posz (digits_value 0 false cs')
      else omap Posz (digits_value 0 false (c :: cs'))
  | [::] => None
  end.

Definition python_int (s : string) : result int :=
  if int_literal (chars s) is Some n then Ok n
  else Raise (ValueError ("invalid literal for int() with base 10: " ++ repr s)).

Section InitDataBase.

(* model_options and job_setup, which the constructors receive *)
Variable options : Type.

(* The object a constructor call builds (the constructors themselves set up
   the model and the caches). *)
Inductive data_base : Type :=
| New_WOA of options
| New_WOD of options
| New_WOD_TMM of int & options
| New_OLDWOD_TMM of int & options.

Definition unknown_data_kind (data_kind : string) : string :=
  "Data_kind " ++ data_kind ++ " unknown. Must be "
  ++ str [:: double_quote] ++ "WOA" ++ str [:: double_quote] ++ ", "
  ++ str [:: double_quote] ++ "WOD" ++ str [:: double_quote] ++ " or "
  ++ str [:: double_quote] ++ "WOD." ++ str [:: double_quote] ++ ".".

Definition init_data_base (data_kind : string) (db_kargs : options)
  : result data_base :=
  if upper data_kind == "WOA" then Ok (New_WOA db_kargs)
  else if upper data_kind == "WOD" then Ok (New_WOD db_kargs)
  else if startswith (upper data_kind) "WOD" then
    let data_kind_splitted := str_split data_kind "."%char in
    if (size data_kind_splitted == 2)
       && (nth "" data_kind_splitted 0 == "WOD")
    then
      max_land_boxes <-r python_int (nth "" data_kind_splitted 1) ;
      Ok (New_WOD_TMM max_land_boxes db_kargs)
    else Raise AssertionError
  else if startswith (upper data_kind) "OLDWOD" then
    let data_kind_splitted := str_split data_kind "."%char in
    if (size data_kind_splitted == 2)
       && (nth "" data_kind_splitted 0 == "OLDWOD")
    then
      max_land_boxes <-r python_int (nth "" data_kind_splitted 1) ;
      Ok (New_OLDWOD_TMM max_land_boxes db_kargs)
    else Raise AssertionError
  else Raise (ValueError (unknown_data_kind data_kind)).

End InitDataBase.

Section Family.

(* Keyword arguments: a dict from names to values, in insertion order.  A
   value is a str or another object. *)
Variable object : Type.

Inductive value : Type :=
| Str of string
| Obj of object.

Definition kargs : Type := seq (string * value).

Definition dict_get (V : Type) (d : seq (string * V)) (key : string)
  : result V :=
  if [seq kv <- d | kv.1 == key] is kv :: _ then Ok kv.2
  else Raise (KeyError key).

Definition dict_set (V : Type) (d : seq (string * V)) (key : string) (v : V)
  : seq (string * V) :=
  if key \in [seq kv.1 | kv <- d]
  then [seq if kv.1 == key then (key, v) else kv | kv <- d]
  else rcons d (key, v).

(* d.update(other) *)
Definition dict_update (V : Type) (d other : seq (string * V))
  : seq (string * V) :=
  foldl (fun d kv => dict_set d kv.1 kv.2) d other.

(* The cost function classes and their objects are not among the sources:
   a call of a member class with keyword arguments builds an object and
   its data base; the attribute data_base of the object can be assigned. *)
Variable member_class : Type.
Variable cost_function : Type.
Variable data_base_ref : Type.
Variable construct : member_class -> kargs -> cost_function * data_base_ref.

Record member : Type := Member {
  member_object : cost_function;
  member_data_base : data_base_ref
}.

Definition unknown_family_data_kind (data_kind : string)
  (keys : seq string) : string :=
  "Data_kind " ++ data_kind ++ " unknown. Must be in " ++ str_list keys ++ ".".

(* Family.__init__: self.family *)
Definition Family_init
  (member_classes : seq (string * seq (member_class * seq kargs)))
  (cf_kargs : kargs) : result (seq member) :=
  data_kind <-r dict_get cf_kargs "data_kind" ;
  data_kind <-r (if data_kind is Str s then Ok (upper s)
                 else Raise (AttributeError "upper")) ;
  member_classes_list <-r
    (if dict_get member_classes data_kind is Ok l then Ok l
     else Raise (ValueError (unknown_family_data_kind data_kind
                               [seq kv.1 | kv <- member_classes]))) ;
  let family :=
    flatten [seq [seq (let: (o, d) :=
                         construct ma.1 (dict_update cf_kargs additional_kargs)
                       in Member o d)
                 | additional_kargs <- ma.2]
            | ma <- member_classes_list] in
  let family :=
    match family with
    | first :: others =>
        first :: [seq Member (member_object x) (member_data_base first)
                 | x <- others]
    | [::] => [::]
    end in
  Ok family.

(* the objects and data bases the constructor calls of a family build *)
Definition built (cf_kargs : kargs)
  (l : seq (member_class * seq kargs))
  : seq (cost_function * data_base_ref) :=
  flatten [seq [seq construct ma.1 (dict_update cf_kargs additional_kargs)
               | additional_kargs <- ma.2]
          | ma <- l].

(* Family.get_function_value: function is called on the first member, then
   on every member in turn; it may change a state of its own and may
   raise. *)
Variables (State A : Type).

Fixpoint for_each (function : member -> State -> result A * State)
  (family : seq member) (st : State) : result unit * State :=
  match family with
  | [::] => (Ok tt, st)
  | x :: family' =>
      match function x st with
      | (Ok _, st') => for_each function family' st'
      | (Raise e, st') => (Raise e, st')
      end
  end.

Definition get_function_value (family : seq member)
  (function : member -> State -> result A * State) (st : State)
  : result A * State :=
  match family with
  | [::] => (Raise IndexError, st)
  | first :: _ =>
      match function first st with
      | (Ok value, st') =>
          match for_each function family st' with
          | (Ok _, st'') => (Ok value, st'')
          | (Raise e, st'') => (Raise e, st'')
          end
      | (Raise e, st') => (Raise e, st')
      end
  end.

End Family.

Local Close Scope string_scope.

(* ---------------------------------------------------------------------- *)
(*  Part 8.  A small data base, for the examples                           *)
(* ---------------------------------------------------------------------- *)

Module Example.

(* One measurement, natural numbers as parameters and as array elements. *)
Definition boxes_filename (prefix : string) (time_dim : nat) : string :=
  String (ascii_of_nat time_dim) prefix.

Definition F_calculate (parameters : seq nat) : ndarray nat :=
  NdArray [:: 1] [:: sumn parameters].

Definition DF_calculate (parameters : seq nat) : ndarray nat :=
  NdArray [:: 1; size parameters] parameters.

(* boxes of shape (1, time_dim) and (1, p, time_dim) *)
Definition model_f_boxes (parameters : seq nat) (time_dim : nat)
  : ndarray nat :=
  NdArray [:: 1; time_dim] (nseq time_dim (sumn parameters)).

Definition model_df_boxes (parameters : seq nat) (time_dim : nat)
  : ndarray nat :=
  NdArray [:: 1; size parameters; time_dim]
    (flatten [seq nseq time_dim x | x <- parameters]).

(* A resampling along axis 1 that keeps the first entries, in place of
   util.math.interpolate.change_dim. *)
Definition change_dim (a : ndarray nat) (axis new_dim : nat) : ndarray nat :=
  match shape a with
  | d0 :: d1 :: inner =>
      NdArray (d0 :: new_dim :: inner)
        (flatten [seq take (new_dim * \prod_(d <- inner) d) block
                 | block <- reshape (nseq d0 (d1 * \prod_(d <- inner) d))
                              (data a)])
  | _ => a
  end.

(* numpy.swapaxes for the last two axes of an array of three axes. *)
Definition swapaxes (a : ndarray nat) (i j : nat) : ndarray nat :=
  match shape a with
  | [:: d0; d1; d2] =>
      NdArray [:: d0; d2; d1]
        (flatten [seq flatten [seq [seq nth 0 row k
                                   | row <- reshape (nseq d1 d2) block]
                              | k <- iota 0 d2]
                 | block <- reshape (nseq d0 (d1 * d2)) (data a)])
  | _ => a
  end.

Definition empty_state : db_state nat nat :=
  DbState (fun _ => None) (None, fun _ => None) None None None None None [::].

(* Two parameters; Jacobians of three columns and of one column. *)
Definition parameters : seq nat := [:: 7; 8].

Definition wide_DF : ndarray nat := NdArray [:: 1; 3] [:: 10; 20; 30].


Definition wide_df_boxes : ndarray nat := NdArray [:: 1; 12; 3] (iota 0 36).


Definition cached (DF boxes : ndarray nat) : db_state nat nat :=
  set_memory_cache_with_parameters
    (Some parameters, update "DF"%string DF (fun _ => None))
    (set_hdd_cache
       (update (parameters, "DF"%string) DF
          (update (parameters, boxes_filename "df_boxes" 12) boxes
             (fun _ => None)))
       empty_state).

(* The measurements of a WOA object: boxes of shape (1, 12), the means
   1 .. 12, observed in the first six boxes only. *)
Definition box_means : ndarray nat := NdArray [:: 1; 12] (iota 1 12).

Definition box_nobs_positive : ndarray bool :=
  NdArray [:: 1; 12] (nseq 6 true ++ nseq 6 false).

Definition box_mean_deviations : ndarray nat := NdArray [:: 1; 12] (nseq 12 1).

(* the selection of the observed boxes, in place of the annual averaging *)
Definition annual_averaged (a : ndarray nat) (mask : ndarray bool)
  (annual_factor : nat) : ndarray nat :=
  NdArray [:: count id (data mask)]
    [seq xb.1 * annual_factor | xb <- zip (data a) (data mask) & xb.2].

Definition masked : ndarray nat :=
  NdArray [:: 1; 12] [:: 1; 2; 3; 4; 5; 6; 0; 0; 0; 0; 0; 0].

(* the measurements of a WOD object *)
Definition pw_results : ndarray nat := NdArray [:: 2] [:: 3; 4].

Definition pw_deviations : ndarray nat := NdArray [:: 2] [:: 1; 1].

(* cost function classes by name, and a family of them *)
Definition construct (member_class : string) (cf_kargs : kargs unit)
  : kargs unit * nat :=
  (cf_kargs, size cf_kargs).

Definition member_classes : seq (string * seq (string * seq (kargs unit))) :=
  [:: ("OLS"%string, [:: ("OLS"%string, [:: [::]])]);
      ("WLS"%string,
       [:: ("WLS"%string, [:: [::]]); ("LWLS"%string, [:: [::]])])].

Definition cf_kargs (data_kind : string) : kargs unit :=
  [:: ("data_kind"%string, Str unit data_kind);
      ("job_setup"%string, Obj tt)].

End Example.

Local Close Scope nat_scope.

(* ====================================================================== *)
(*  Properties                                                             *)
(* ====================================================================== *)

(* ---------------------------------------------------------------------- *)
(*  Matrix facts over a field                                              *)
(* ---------------------------------------------------------------------- *)

Section MatrixFacts.

Variable F : fieldType.

Lemma mul_const_mx p q r (u v : F) :
  (const_mx u : 'M_(p, q)) *m (const_mx v : 'M_(q, r)) = const_mx (u * v *+ q).
Proof.
apply/matrixP => i j; rewrite !mxE.
under eq_bigr do rewrite !mxE.
by rewrite sumr_const card_ord.
Qed.

Lemma scale_const_mx p q (u v : F) :
  u *: (const_mx v : 'M_(p, q)) = const_mx (u * v).
Proof. by apply/matrixP => i j; rewrite !mxE. Qed.

Lemma add_const_mx p q (u v : F) :
  (const_mx u : 'M_(p, q)) + const_mx v = const_mx (u + v).
Proof. by apply/matrixP => i j; rewrite !mxE. Qed.

Lemma const_mx11 (u : F) : (const_mx u : 'M_1) = u%:M.
Proof. by apply/matrixP => i j; rewrite !mxE !ord1 eqxx mulr1n. Qed.

(* Sylvester's determinant identity, from the two block factorisations of
   [[1, -X], [Y, 1]]. *)
Lemma det_1D_mulC p q (X : 'M[F]_(p, q)) (Y : 'M[F]_(q, p)) :
  \det (1%:M + X *m Y) = \det (1%:M + Y *m X).
Proof.
pose M : 'M[F]_(p + q) := block_mx 1%:M (- X) Y 1%:M.
have E1 : M = block_mx 1%:M 0 Y 1%:M *m block_mx 1%:M (- X) 0 (1%:M + Y *m X).
  rewrite mulmx_block ?mul1mx ?mul0mx ?mulmx0 ?mulmx1 ?addr0 ?add0r ?mulmxN.
  by rewrite addrC addrK.
have E2 : M = block_mx (1%:M + X *m Y) (- X) 0 1%:M *m block_mx 1%:M 0 Y 1%:M.
  rewrite mulmx_block ?mul1mx ?mul0mx ?mulmx0 ?mulmx1 ?addr0 ?add0r ?mulNmx.
  by rewrite addrK.
have := congr1 determinant E1; rewrite {1}E2 !det_mulmx !det_ublock !det_lblock.
by rewrite !det1 !mulr1 !mul1r.
Qed.

Lemma det_mx2 (A : 'M[F]_2) : \det A = A 0 0 * A 1 1 - A 0 1 * A 1 0.
Proof.
have e1 : lift ord0 (0 : 'I_1) = 1 :> 'I_2 by apply/val_inj.
have e0 : lift (1 : 'I_2) (0 : 'I_1) = 0 :> 'I_2 by apply/val_inj.
rewrite (expand_det_row _ ord0) !big_ord_recl big_ord0 /cofactor !det_mx11 !mxE.
rewrite e1 e0 /= expr0 addr0 mul1r add0n expr1 mulN1r mulrN.
by rewrite -[ord0]/(0 : 'I_2).
Qed.

Lemma block_mx11E (p q r s : F) :
  let A : 'M[F]_2 :=
    block_mx (const_mx p : 'M_1) (const_mx q) (const_mx r) (const_mx s : 'M_1)
  in [/\ A 0 0 = p, A 0 1 = q, A 1 0 = r & A 1 1 = s].
Proof.
have e0 : (0 : 'I_2) = lshift 1 (0 : 'I_1) by apply/val_inj.
have e1 : (1 : 'I_2) = rshift 1 (0 : 'I_1) by apply/val_inj.
pose P := (const_mx p : 'M[F]_1); pose Q := (const_mx q : 'M[F]_1).
pose U := (const_mx r : 'M[F]_1); pose S := (const_mx s : 'M[F]_1).
move=> A; rewrite /A e0 e1; split.
- by rewrite (block_mxEul P Q U S) mxE.
- by rewrite (block_mxEur P Q U S) mxE.
- by rewrite (block_mxEdl P Q U S) mxE.
- by rewrite (block_mxEdr P Q U S) mxE.
Qed.

Lemma det_block11 (p q r s : F) :
  \det (block_mx (const_mx p : 'M_1) (const_mx q : 'M_1)
                 (const_mx r : 'M_1) (const_mx s : 'M_1)) = p * s - q * r.
Proof.
by rewrite det_mx2; have [-> -> -> ->] := block_mx11E p q r s.
Qed.

Lemma const_mx_mulv p q (u : F) (v : 'cV[F]_q) :
  (const_mx u : 'M_(p, q)) *m v = const_mx (u * sumv v).
Proof.
apply/matrixP => i j; rewrite !mxE mulr_sumr.
by apply: eq_bigr => k _; rewrite !mxE ord1.
Qed.

Lemma sumvZ p k (v : 'cV[F]_p) : sumv (k *: v) = k * sumv v.
Proof. by rewrite /sumv mulr_sumr; apply: eq_bigr => i _; rewrite !mxE. Qed.

Lemma sumvB p (v w : 'cV[F]_p) : sumv (v - w) = sumv v - sumv w.
Proof. by rewrite /sumv -sumrB; apply: eq_bigr => i _; rewrite !mxE. Qed.

Lemma sumv_const p (u : F) : sumv (const_mx u : 'cV_p) = u *+ p.
Proof.
rewrite /sumv; under eq_bigr do rewrite mxE.
by rewrite sumr_const card_ord.
Qed.

Lemma trmx_mul_const p (v : 'cV[F]_p) (u : F) :
  (v^T *m (const_mx u : 'cV_p)) 0 0 = sumv v * u.
Proof.
by rewrite !mxE /sumv mulr_suml; apply: eq_bigr => i _; rewrite !mxE.
Qed.

Section Det.

Variables (n m : nat) (a b c : F).

Let Sigma : 'M[F]_(n + m) := block_correlation_matrix n m a b c.
Let Wb : 'M[F]_(n + m) := block_mx (1 - a)%:M 0 0 (1 - b)%:M.
Let Wbinv : 'M[F]_(n + m) := block_mx ((1 - a)^-1)%:M 0 0 ((1 - b)^-1)%:M.
Let X : 'M[F]_(n + m, 1 + 1) :=
  block_mx (const_mx a) (const_mx c) (const_mx c) (const_mx b).
Let Ut : 'M[F]_(1 + 1, n + m) :=
  block_mx (const_mx 1) 0 0 (const_mx 1).
Let reg : F :=
  (1 + (n%:R - 1) * a) * (1 + (m%:R - 1) * b) - n%:R * m%:R * c ^+ 2.

(* Sigma is diagonal plus a correction of rank two. *)
Lemma block_correlation_low_rank : Sigma = Wb + X *m Ut.
Proof.
rewrite /Sigma /block_correlation_matrix /Wb /X /Ut.
rewrite mulmx_block !mulmx0 !addr0 !add0r !mul_const_mx.
by rewrite add_block_mx !add0r !mulr1 !mulr1n.
Qed.

Hypotheses (a1 : a != 1) (b1 : b != 1).

Let a1' : 1 - a != 0.
Proof. by rewrite subr_eq0 eq_sym. Qed.

Let b1' : 1 - b != 0.
Proof. by rewrite subr_eq0 eq_sym. Qed.

Lemma WbK : Wb *m Wbinv = 1%:M.
Proof.
rewrite /Wb /Wbinv mulmx_block !mulmx0 !mul0mx !addr0 !add0r -!scalar_mxM.
by rewrite !divff // -scalar_mx_block.
Qed.

Lemma det_block_correlation_matrix :
  \det Sigma = (1 - a) ^+ n * (1 - b) ^+ m * (reg / ((1 - a) * (1 - b))).
Proof.
have -> : Sigma = Wb *m (1%:M + (Wbinv *m X) *m Ut).
  by rewrite mulmxDr mulmx1 !mulmxA WbK mul1mx block_correlation_low_rank.
rewrite det_mulmx det_1D_mulC {1}/Wb det_ublock !det_scalar; congr (_ * _).
rewrite /Wbinv /X /Ut.
rewrite mulmx_block !mul0mx !addr0 !add0r !mul_scalar_mx !scale_const_mx.
rewrite mulmx_block !mul0mx !addr0 !add0r !mul_const_mx.
rewrite (scalar_mx_block 1 1 (1 : F)) -(const_mx11 1) add_block_mx.
rewrite !add_const_mx det_block11 /reg.
by have := a1'; have := b1'; move=> hb ha; field.
Qed.

Hypothesis reg0 : reg != 0.

Lemma block_correlation_unit : Sigma \in unitmx.
Proof.
rewrite unitmxE unitfE det_block_correlation_matrix.
by rewrite !mulf_neq0 ?expf_neq0 ?invr_neq0 ?mulf_neq0.
Qed.

Section Solve.

Variables (x1 : 'cV[F]_n) (x2 : 'cV[F]_m).

Let s1 : F := sumv x1.
Let s2 : F := sumv x2.
Let t1 : F := ((1 - b + m%:R * b) * s1 - n%:R * c * s2) / reg.
Let t2 : F := ((1 - a + n%:R * a) * s2 - m%:R * c * s1) / reg.
Let y1 : 'cV[F]_n := (1 - a)^-1 *: (x1 - const_mx (a * t1 + c * t2)).
Let y2 : 'cV[F]_m := (1 - b)^-1 *: (x2 - const_mx (c * t1 + b * t2)).

Lemma sumv_y1 : sumv y1 = t1.
Proof.
rewrite /y1 sumvZ sumvB sumv_const -/s1 /t1 /t2.
by have := reg0; have := a1'; rewrite /reg => ha hr; field.
Qed.

Lemma sumv_y2 : sumv y2 = t2.
Proof.
rewrite /y2 sumvZ sumvB sumv_const -/s2 /t1 /t2.
by have := reg0; have := b1'; rewrite /reg => hb hr; field.
Qed.

(* The solution of Sigma y = x, block by block. *)
Lemma block_correlation_solution : Sigma *m col_mx y1 y2 = col_mx x1 x2.
Proof.
rewrite /Sigma /block_correlation_matrix.
rewrite mul_block_col !mulmxDl !mul_scalar_mx !const_mx_mulv.
rewrite sumv_y1 sumv_y2 /y1 /y2 !scalerA !divff // !scale1r.
by congr col_mx; apply/matrixP => i j; rewrite !mxE; ring.
Qed.

Lemma block_quadratic_form :
  ((col_mx x1 x2)^T *m invmx Sigma *m col_mx x1 x2) 0 0 =
  (x1^T *m x1) 0 0 / (1 - a) + (x2^T *m x2) 0 0 / (1 - b)
  - ((a * t1 + c * t2) * s1 / (1 - a) + (c * t1 + b * t2) * s2 / (1 - b)).
Proof.
rewrite -mulmxA -{2}block_correlation_solution mulKmx ?block_correlation_unit //.
rewrite tr_col_mx mul_row_col /y1 /y2 -!scalemxAr !mulmxBr.
rewrite [LHS]mxE [X in X + _]mxE [X in _ + X]mxE.
rewrite [X in _ * X + _]mxE [X in _ + _ * X]mxE.
rewrite [X in _ * (_ + X) + _]mxE [X in _ + _ * (_ + X)]mxE.
rewrite !trmx_mul_const -/s1 -/s2.
by have := a1'; have := b1'; move=> hb ha; field.
Qed.

End Solve.

End Det.

End MatrixFacts.

(** C2: check_regularity raises the SingularMatrixError that carries the
    triplet (a, b, c) exactly when (1+(n-1)*a)*(1+(m-1)*b) - n*m*c^2 <= 0,
    zero included, and returns normally exactly when it is positive; for
    such non-regular parameters ln_det_correlation_matrix and
    projected_product_inverse_correlation_matrix_both_sides raise that same
    error, whatever the projected factor. *)
Theorem check_regularity_iff (n m : nat) (a b c : R) :
  (check_regularity n m (a, b, c) = Raise (SingularMatrixError (a, b, c))
     <-> regularity_factor n m a b c <= 0)
  /\ (check_regularity n m (a, b, c) = Ok tt
     <-> 0 < regularity_factor n m a b c)
  /\ (regularity_factor n m a b c <= 0 ->
      ln_det_correlation_matrix n m (a, b, c)
        = Raise (SingularMatrixError (a, b, c))
      /\ forall factor_projected,
          projected_product_inverse_correlation_matrix_both_sides
            n m factor_projected (a, b, c)
          = Raise (SingularMatrixError (a, b, c))).
Proof.
rewrite /ln_det_correlation_matrix.
rewrite /projected_product_inverse_correlation_matrix_both_sides.
rewrite /check_regularity; case: (leP (regularity_factor n m a b c) 0) => h.
- split; first by split.
  split; first by split=> //; rewrite ltNge h.
  by move=> _; split=> // -[sq sm].
- split; first by split.
  by split; first by split.
Qed.

(* ---------------------------------------------------------------------- *)
(*  The explicit correlation matrix                                        *)
(* ---------------------------------------------------------------------- *)

Lemma correlation_matrix_block (n m : nat) (a b c : R) :
  correlation_matrix n m a b c = block_correlation_matrix n m a b c.
Proof.
apply/matrixP => i j; rewrite /block_correlation_matrix mxE.
rewrite -[i]splitK -[j]splitK.
case: (split i) => i'; case: (split j) => j' /=.
- rewrite block_mxEul !mxE (inj_eq (@lshift_inj _ _)) /= !ltn_ord /=.
  by case: eqP => _; rewrite ?mulr1n ?mulr0n; ring.
- rewrite block_mxEur !mxE eq_lrshift /= ltn_ord ltnNge leq_addr /=.
  by rewrite leqNgt ltn_ord.
- rewrite block_mxEdl !mxE eq_rlshift /= ltn_ord ltnNge leq_addr /=.
  by rewrite leqNgt ltn_ord.
- rewrite block_mxEdr !mxE (inj_eq (@rshift_inj _ _)) /=.
  rewrite !ltnNge !leq_addr /=.
  by case: eqP => _; rewrite ?mulr1n ?mulr0n; ring.
Qed.

Lemma column_cat (n m : nat) (x : seq R) :
  column (n + m) x = col_mx (column n (take n x)) (column m (drop n x)).
Proof.
apply/matrixP => i j; rewrite mxE -[i]splitK.
case: (split i) => i' /=.
- by rewrite col_mxEu mxE nth_take.
- by rewrite col_mxEd mxE nth_drop.
Qed.

Lemma sumv_column (k : nat) (s : seq R) :
  size s = k -> sumv (column k s) = sum_values s.
Proof.
move=> <-; rewrite /sumv /sum_values (big_nth 0) big_mkord.
by apply: eq_bigr => i _; rewrite mxE.
Qed.

Lemma dot_column (k : nat) (s : seq R) :
  size s = k -> ((column k s)^T *m column k s) 0 0 = sum_squares s.
Proof.
move=> <-; rewrite /sum_squares (big_nth 0) big_mkord mxE.
by apply: eq_bigr => i _; rewrite !mxE.
Qed.

Lemma det_correlation_matrix (n m : nat) (a b c : R) :
  a != 1 -> b != 1 ->
  \det (correlation_matrix n m a b c)
  = (1 - a) ^+ n * (1 - b) ^+ m
    * (regularity_factor n m a b c / ((1 - a) * (1 - b))).
Proof.
move=> a1 b1; rewrite correlation_matrix_block.
exact: det_block_correlation_matrix.
Qed.

Lemma det2_W (a b : R) : det2 (Mat2 (1 - a) 0 0 (1 - b)) = (1 - a) * (1 - b).
Proof. by rewrite /det2 /=; ring. Qed.

Lemma det2_H (n m : nat) (a b c : R) :
  det2 (add2 (Mat2 (1 - a) 0 0 (1 - b))
             (mul2 (Mat2 n%:R 0 0 m%:R) (Mat2 a c c b)))
  = regularity_factor n m a b c.
Proof. by rewrite /det2 /regularity_factor /=; ring. Qed.

(* x' Sigma^-1 x in closed form, for every stacked vector x of n+m values:
   the first product part MINUS summed' * (W^-1 A H^-1) * summed. *)
Lemma brute_force_closed_form (n m : nat) (a b c : R) (x : seq R) fp :
  a != 1 -> b != 1 -> regularity_factor n m a b c != 0 ->
  size x = (n + m)%N -> project x n = Ok fp ->
  brute_force_product n m a b c x = closed_form_product n m a b c fp.
Proof.
move=> a1 b1 reg0 sz [<-].
have sz1 : size (take n x) = n.
  by rewrite size_take sz; case: ltngtP (leq_addr m n).
have sz2 : size (drop n x) = m by rewrite size_drop sz addKn.
rewrite /brute_force_product correlation_matrix_block column_cat.
rewrite block_quadratic_form // !dot_column // !sumv_column //.
rewrite /closed_form_product /inv2_val det2_W det2_H.
rewrite /quad2 /mul2 /add2 /=.
have a1' : 1 - a != 0 by rewrite subr_eq0 eq_sym.
have b1' : 1 - b != 0 by rewrite subr_eq0 eq_sym.
move: reg0; rewrite /regularity_factor /= => reg0.
by field.
Qed.

(* ---------------------------------------------------------------------- *)
(*  The logarithm                                                          *)
(* ---------------------------------------------------------------------- *)

Lemma lnM (x y : R) : 0 < x -> 0 < y -> ln (x * y) = ln x + ln y.
Proof. by move=> /RltP hx /RltP hy; exact: ln_mult. Qed.

Lemma lnV (x : R) : 0 < x -> ln x^-1 = - ln x.
Proof. by move=> /RltP hx; exact: ln_Rinv. Qed.

Lemma lnX (x : R) (n : nat) : 0 < x -> ln (x ^+ n) = n%:R * ln x.
Proof.
move=> hx; elim: n => [|n IH]; first by rewrite expr0 mul0r; exact: ln_1.
by rewrite exprS lnM ?exprn_gt0 // IH -[in RHS]add1n natrD mulrDl mul1r.
Qed.

(* ln det Sigma in closed form, when Sigma has the eigenvalues 1-a and 1-b
   positive and is regular. *)
Lemma ln_det_closed_form (n m : nat) (a b c : R) :
  a < 1 -> b < 1 -> 0 < regularity_factor n m a b c ->
  ln (\det (correlation_matrix n m a b c))
  = (n%:R - 1) * ln (1 - a) + (m%:R - 1) * ln (1 - b)
    + ln (regularity_factor n m a b c).
Proof.
move=> a1 b1 reg0.
have a1' : 0 < 1 - a by rewrite subr_gt0.
have b1' : 0 < 1 - b by rewrite subr_gt0.
rewrite det_correlation_matrix ?lt_eqF //.
have ab : 0 < (1 - a) * (1 - b) by rewrite mulr_gt0.
rewrite !lnM ?lnV ?lnX ?mulr_gt0 ?invr_gt0 ?exprn_gt0 //.
by rewrite lnM //; ring.
Qed.

(** C3 (amended): for parameters with a < 1 and b < 1 that satisfy the
    regularity condition, ln_det_correlation_matrix returns exactly
    (n-1)*ln(1-a) + (m-1)*ln(1-b) + ln((1+(n-1)*a)*(1+(m-1)*b) - n*m*c^2),
    and that number is ln det Sigma for the explicit two-group block
    correlation matrix Sigma. *)
Theorem ln_det_correlation_matrix_correct (n m : nat) (a b c : R) :
  a < 1 -> b < 1 -> 0 < regularity_factor n m a b c ->
  ln_det_correlation_matrix n m (a, b, c)
  = Ok (Some ((n%:R - 1) * ln (1 - a) + (m%:R - 1) * ln (1 - b)
              + ln ((1 + (n%:R - 1) * a) * (1 + (m%:R - 1) * b)
                    - n%:R * m%:R * c ^+ 2)))
  /\ (n%:R - 1) * ln (1 - a) + (m%:R - 1) * ln (1 - b)
     + ln ((1 + (n%:R - 1) * a) * (1 + (m%:R - 1) * b) - n%:R * m%:R * c ^+ 2)
     = ln (\det (correlation_matrix n m a b c)).
Proof.
move=> a1 b1 reg0; split; last by rewrite ln_det_closed_form.
rewrite /ln_det_correlation_matrix /check_regularity leNgt reg0 /=.
rewrite /np_log !subr_gt0 a1 b1 /=.
by move: reg0; rewrite /regularity_factor /= subr_gt0 => ->.
Qed.

(* n = m = 2, a = 1/10, b = 1/5, c = 1/20: the value is ln 1.31 + ln 0.9 +
   ln 0.8, the logarithm of the determinant of the 4x4 matrix. *)
Lemma ln_det_correlation_matrix_witness :
  ln_det_correlation_matrix 2 2 (10%:R^-1, 5%:R^-1, 20%:R^-1)
  = Ok (Some ((2%:R - 1) * ln (1 - 10%:R^-1) + (2%:R - 1) * ln (1 - 5%:R^-1)
              + ln ((1 + (2%:R - 1) * 10%:R^-1) * (1 + (2%:R - 1) * 5%:R^-1)
                    - 2%:R * 2%:R * 20%:R^-1 ^+ 2)))
  /\ (2%:R - 1) * ln (1 - 10%:R^-1) + (2%:R - 1) * ln (1 - 5%:R^-1)
     + ln ((1 + (2%:R - 1) * 10%:R^-1) * (1 + (2%:R - 1) * 5%:R^-1)
           - 2%:R * 2%:R * 20%:R^-1 ^+ 2)
     = ln (\det (correlation_matrix 2 2 10%:R^-1 5%:R^-1 20%:R^-1)).
Proof.
apply: ln_det_correlation_matrix_correct; rewrite /regularity_factor /=; lra.
Defined.

(* C3 as stated fails at n = 3, m = 1, (a, b, c) = (2, 0, 0): the
   parameters are regular and det Sigma = 5 has a logarithm, yet np.log(1-a)
   is nan and so is the value returned. *)
Lemma ln_det_correlation_matrix_nan :
  0 < regularity_factor 3 1 2%:R 0 0
  /\ \det (correlation_matrix 3 1 2%:R 0 0) = 5%:R
  /\ ln_det_correlation_matrix 3 1 (2%:R, 0, 0) = Ok None.
Proof.
have reg : regularity_factor 3 1 2%:R 0 0 = 5%:R.
  by rewrite /regularity_factor /=; ring.
split; first by rewrite reg; lra.
split.
  rewrite det_correlation_matrix ?reg; [| |by field].
  - by rewrite neq_lt; apply/orP; right; lra.
  - by rewrite eq_sym oner_neq0.
rewrite /ln_det_correlation_matrix /check_regularity reg.
have -> : (5%:R <= 0 :> R) = false by apply/negbTE; rewrite -ltNge; lra.
rewrite /= /np_log.
have -> : (0 < 1 - 2%:R :> R) = false by apply/negbTE; rewrite -leNgt; lra.
by [].
Qed.

(* ---------------------------------------------------------------------- *)
(*  The projected product                                                  *)
(* ---------------------------------------------------------------------- *)

Lemma inv2_regular (X : mat2) : det2 X != 0 -> inv2 X = Ok (inv2_val X).
Proof. by rewrite /inv2 => /negbTE ->. Qed.

(* What the code returns for regular parameters with a != 1 and b != 1:
   the first product part PLUS summed' * (W^-1 A H^-1 W^-1) * summed. *)
Lemma projected_product_regular (n m : nat) (a b c : R) fp :
  a != 1 -> b != 1 -> 0 < regularity_factor n m a b c ->
  projected_product_inverse_correlation_matrix_both_sides n m fp (a, b, c)
  = Ok (Some (fp.1.1 / (1 - a) + fp.1.2 / (1 - b)
              + quad2 fp.2
                  (mul2 (mul2 (mul2 (inv2_val (Mat2 (1 - a) 0 0 (1 - b)))
                                    (Mat2 a c c b))
                              (inv2_val (add2 (Mat2 (1 - a) 0 0 (1 - b))
                                 (mul2 (Mat2 n%:R 0 0 m%:R) (Mat2 a c c b)))))
                        (inv2_val (Mat2 (1 - a) 0 0 (1 - b)))))).
Proof.
case: fp => -[q1 q2] [s1 s2] a1 b1 reg0.
have a1' : 1 - a != 0 by rewrite subr_eq0 eq_sym.
have b1' : 1 - b != 0 by rewrite subr_eq0 eq_sym.
rewrite /projected_product_inverse_correlation_matrix_both_sides.
rewrite /check_regularity leNgt reg0 /=.
have dW : det2 (Mat2 (1 - a) 0 0 (1 - b)) != 0 by rewrite det2_W mulf_neq0.
have dH : det2 (add2 (Mat2 (1 - a) 0 0 (1 - b))
                     (mul2 (Mat2 n%:R 0 0 m%:R) (Mat2 a c c b))) != 0.
  by rewrite det2_H gt_eqF.
rewrite !(inv2_regular dW) (inv2_regular dH) /=.
by rewrite /fdiv (negbTE a1') (negbTE b1').
Qed.

(** C1 at the scenario of the specification, n = m = 2, a = 0.1, b = 0.2,
    c = 0.05, x = [1, 1, 1, 1]: the parameters are regular, project gives
    squared = (2, 2) and summed = (2, 2), the code returns 555335/84888
    (about 6.54), and x' Sigma^-1 x for the explicit 4x4 matrix is 420/131
    (about 3.21): the two differ. *)
Theorem projected_product_scenario :
  0 < regularity_factor 2 2 10%:R^-1 5%:R^-1 20%:R^-1
  /\ project [:: 1; 1; 1; 1] 2 = Ok ((2%:R, 2%:R), (2%:R, 2%:R))
  /\ projected_product_inverse_correlation_matrix_both_sides 2 2
       ((2%:R, 2%:R), (2%:R, 2%:R)) (10%:R^-1, 5%:R^-1, 20%:R^-1)
     = Ok (Some (555335%:R / 84888%:R))
  /\ brute_force_product 2 2 10%:R^-1 5%:R^-1 20%:R^-1 [:: 1; 1; 1; 1]
     = 420%:R / 131%:R
  /\ 555335%:R / 84888%:R != 420%:R / 131%:R :> R.
Proof.
have reg : regularity_factor 2 2 10%:R^-1 5%:R^-1 20%:R^-1 = 131%:R / 100%:R.
  by rewrite /regularity_factor /=; field.
have reg0 : 0 < regularity_factor 2 2 10%:R^-1 5%:R^-1 20%:R^-1.
  by rewrite reg; lra.
have a1 : 10%:R^-1 != 1 :> R by rewrite neq_lt; apply/orP; left; lra.
have b1 : 5%:R^-1 != 1 :> R by rewrite neq_lt; apply/orP; left; lra.
have prj : project [:: 1; 1; 1; 1] 2 = Ok ((2%:R, 2%:R), (2%:R, 2%:R)).
  rewrite /project /project_index /= /sum_squares /sum_values.
  by rewrite !big_cons !big_nil !mulr1 !addr0.
split=> //; split=> //; split; last split.
- rewrite projected_product_regular //; congr (Ok (Some _)).
  by rewrite /quad2 /mul2 /inv2_val /add2 /det2 /=; field.
- rewrite (brute_force_closed_form a1 b1 _ _ prj) ?gt_eqF //.
  by rewrite /closed_form_product /quad2 /mul2 /inv2_val /add2 /det2 /=; field.
- by rewrite neq_lt; apply/orP; right; lra.
Qed.

(* ---------------------------------------------------------------------- *)
(*  Further properties of the correlation methods                          *)
(* ---------------------------------------------------------------------- *)

(** X1: WOD.project splits the values at split_index without losing or
    repeating any: the two squared parts add up to the sum of squares of
    all values and the two summed parts to their sum, for every split
    index; from the length of the values on, the second group is empty and
    its parts are 0.  A projected_value_index other than 0, 1 or None
    raises the ValueError. *)
Theorem project_splits_sums (values : seq R) (split_index : nat) :
  (exists2 fp, project values split_index = Ok fp
     & [/\ fp.1.1 + fp.1.2 = sum_squares values,
           fp.2.1 + fp.2.2 = sum_values values
         & (size values <= split_index)%N -> fp.1.2 = 0 /\ fp.2.2 = 0])
  /\ forall k, project_index values split_index k.+2
       = Raise (ValueError
           "Unknown projected_value_index: projected_value_index must be 0, 1 or None.").
Proof.
split=> //.
exists ((sum_squares (take split_index values),
         sum_squares (drop split_index values)),
        (sum_values (take split_index values),
         sum_values (drop split_index values))) => //.
rewrite /sum_squares /sum_values /=; split.
- by rewrite -big_cat cat_take_drop.
- by rewrite -big_cat cat_take_drop.
- by move=> le; rewrite drop_oversize // !big_nil.
Qed.

(* W is singular when a = 1 or b = 1, and W.I is evaluated first. *)
Lemma projected_product_singular_W (n m : nat) (a b c : R) fp :
  0 < regularity_factor n m a b c -> (a == 1) || (b == 1) ->
  projected_product_inverse_correlation_matrix_both_sides n m fp (a, b, c)
  = Raise LinAlgError.
Proof.
move=> reg0 ab; case: fp => -[q1 q2] [s1 s2].
rewrite /projected_product_inverse_correlation_matrix_both_sides.
rewrite /check_regularity leNgt reg0 /= /inv2 det2_W.
have -> : (1 - a) * (1 - b) == 0.
  by rewrite mulf_eq0 !subr_eq0 ![1 == _]eq_sym.
by [].
Qed.

(** X2: for regular correlation parameters,
    projected_product_inverse_correlation_matrix_both_sides raises
    LinAlgError exactly when a = 1 or b = 1 (W is singular then), and
    otherwise returns a finite value: the inverse of H never fails, since
    det H is the regularity factor. *)
Theorem projected_product_LinAlgError (n m : nat) (a b c : R) fp :
  0 < regularity_factor n m a b c ->
  (projected_product_inverse_correlation_matrix_both_sides n m fp (a, b, c)
   = Raise LinAlgError <-> (a == 1) || (b == 1))
  /\ ((a != 1) && (b != 1) ->
      exists v,
        projected_product_inverse_correlation_matrix_both_sides n m fp (a, b, c)
        = Ok (Some v)).
Proof.
move=> reg0; split; last first.
  by case/andP=> a1 b1; rewrite projected_product_regular //; eexists.
split.
  case a1 : (a == 1) => //; case b1 : (b == 1) => //.
  by rewrite projected_product_regular ?a1 ?b1.
exact: projected_product_singular_W.
Qed.

(* W^-1 A H^-1 W^-1, the core matrix of the code, and W^-1 A H^-1 *)
Lemma projected_product_gap (n m : nat) (a b c : R) (x : seq R) fp :
  a != 1 -> b != 1 -> 0 < regularity_factor n m a b c ->
  size x = (n + m)%N -> project x n = Ok fp ->
  let W := Mat2 (1 - a) 0 0 (1 - b) in
  let A := Mat2 a c c b in
  let H := add2 W (mul2 (Mat2 n%:R 0 0 m%:R) A) in
  let G := mul2 (mul2 (inv2_val W) A) (inv2_val H) in
  projected_product_inverse_correlation_matrix_both_sides n m fp (a, b, c)
  = Ok (Some (brute_force_product n m a b c x
              + (quad2 fp.2 (mul2 G (inv2_val W)) + quad2 fp.2 G))).
Proof.
move=> a1 b1 reg0 sz prj W A H G.
have r0 : regularity_factor n m a b c != 0 by rewrite gt_eqF.
rewrite projected_product_regular // (brute_force_closed_form a1 b1 r0 sz prj).
congr (Ok (Some _)); case: fp prj => -[q1 q2] [s1 s2] _.
by rewrite /closed_form_product -/W -/A -/H -/G /=; ring.
Qed.

(** X3: for regular parameters with a, b != 1 and a stacked vector x of
    n + m values, what the code returns exceeds x' Sigma^-1 x by
    summed' (W^-1 A H^-1 W^-1 + W^-1 A H^-1) summed.  So the code gives
    exactly x' Sigma^-1 x whenever both groups of x sum to zero, and for
    uncorrelated parameters (a = b = c = 0), where the value is x' x. *)
Theorem projected_product_exact_cases (n m : nat) (a b c : R) (x : seq R) fp :
  a != 1 -> b != 1 -> 0 < regularity_factor n m a b c ->
  size x = (n + m)%N -> project x n = Ok fp ->
  let W := Mat2 (1 - a) 0 0 (1 - b) in
  let A := Mat2 a c c b in
  let H := add2 W (mul2 (Mat2 n%:R 0 0 m%:R) A) in
  let G := mul2 (mul2 (inv2_val W) A) (inv2_val H) in
  [/\ projected_product_inverse_correlation_matrix_both_sides n m fp (a, b, c)
      = Ok (Some (brute_force_product n m a b c x
                  + (quad2 fp.2 (mul2 G (inv2_val W)) + quad2 fp.2 G))),
      fp.2 = (0, 0) ->
      projected_product_inverse_correlation_matrix_both_sides n m fp (a, b, c)
      = Ok (Some (brute_force_product n m a b c x))
    & (a, b, c) = (0, 0, 0) ->
      projected_product_inverse_correlation_matrix_both_sides n m fp (a, b, c)
      = Ok (Some (brute_force_product n m a b c x))
      /\ brute_force_product n m a b c x = sum_squares x].
Proof.
move=> a1 b1 reg0 sz prj W A H G.
have gap := projected_product_gap a1 b1 reg0 sz prj.
split=> //.
- move=> s0; rewrite gap; congr (Ok (Some _)).
  by rewrite s0 /quad2 /=; ring.
- case=> a0 b0 c0.
  have G0 : quad2 fp.2 (mul2 G (inv2_val W)) + quad2 fp.2 G = 0.
    by rewrite /G /A a0 b0 c0 /quad2 /mul2 /=; ring.
  split; first by rewrite gap -/W -/A -/H -/G G0 addr0.
  have r0 : regularity_factor n m a b c != 0 by rewrite gt_eqF.
  rewrite (brute_force_closed_form a1 b1 r0 sz prj).
  case: prj => <-; rewrite /closed_form_product a0 b0 c0 /quad2 /mul2 /=.
  rewrite /sum_squares -[in RHS](cat_take_drop n x) big_cat /=.
  by rewrite !(mul0r, mulr0, addr0, add0r, subr0, oppr0, divr1).
Qed.

(** X4: WOD.ln_det_correlation_matrix returns a value that is not finite
    (nan) exactly for the regular parameters with a >= 1 or b >= 1; for
    all other regular parameters the value is finite, and for the
    parameters that are not regular the call raises. *)
Theorem ln_det_not_finite (n m : nat) (a b c : R) :
  (ln_det_correlation_matrix n m (a, b, c) = Ok None
   <-> 0 < regularity_factor n m a b c /\ ((1 <= a) || (1 <= b)))
  /\ ((exists v, ln_det_correlation_matrix n m (a, b, c) = Ok (Some v))
      <-> [/\ 0 < regularity_factor n m a b c, a < 1 & b < 1]).
Proof.
rewrite /ln_det_correlation_matrix /check_regularity.
rewrite -/(regularity_factor n m a b c).
move: (regularity_factor n m a b c) => r.
rewrite /np_log !subr_gt0.
case: (ltP 0 r) => [reg0|reg0] /=; last first.
  split; split=> //; first by case.
  - by case.
  - by case.
rewrite !leNgt; case a1 : (a < 1); case b1 : (b < 1) => /=.
- split; split=> //; first by case.
  by move=> _; eexists.
- by split; split=> //; case.
- by split; split=> //; case.
- by split; split=> //; case.
Qed.

(** X5: what check_regularity checks is the sign of the determinant of the
    correlation matrix.  For a, b != 1 the explicit matrix is invertible
    exactly when the regularity factor is not 0, and for a, b < 1 the
    check passes exactly when the determinant is positive; parameters that
    pass the check with a, b != 1 always have an invertible matrix. *)
Theorem check_regularity_determinant (n m : nat) (a b c : R) :
  a != 1 -> b != 1 ->
  [/\ (correlation_matrix n m a b c \in unitmx)
      = (regularity_factor n m a b c != 0),
      check_regularity n m (a, b, c) = Ok tt ->
      correlation_matrix n m a b c \in unitmx
    & a < 1 -> b < 1 ->
      (check_regularity n m (a, b, c) = Ok tt
       <-> 0 < \det (correlation_matrix n m a b c))].
Proof.
move=> a1 b1.
have a1' : 1 - a != 0 by rewrite subr_eq0 eq_sym.
have b1' : 1 - b != 0 by rewrite subr_eq0 eq_sym.
have unitE : (correlation_matrix n m a b c \in unitmx)
             = (regularity_factor n m a b c != 0).
  rewrite unitmxE unitfE det_correlation_matrix //.
  have K : (1 - a) ^+ n * (1 - b) ^+ m != 0 by rewrite mulf_neq0 ?expf_neq0.
  have D : ((1 - a) * (1 - b))^-1 != 0 by rewrite invr_eq0 mulf_neq0.
  rewrite mulf_eq0 (negbTE K) /= mulf_eq0 (negbTE D).
  by case: (_ == 0).
have passE : check_regularity n m (a, b, c) = Ok tt
             <-> 0 < regularity_factor n m a b c.
  by rewrite /check_regularity leNgt; case: (0 < _).
split=> //.
- by move/passE => reg0; rewrite unitE gt_eqF.
- move=> lta ltb; rewrite passE det_correlation_matrix //.
  have pa : 0 < 1 - a by rewrite subr_gt0.
  have pb : 0 < 1 - b by rewrite subr_gt0.
  have K : 0 < (1 - a) ^+ n * (1 - b) ^+ m by rewrite mulr_gt0 ?exprn_gt0.
  have D : 0 < ((1 - a) * (1 - b))^-1 by rewrite invr_gt0 mulr_gt0.
  by rewrite (pmulr_rgt0 _ K) (pmulr_lgt0 _ D).
Qed.

(** X6: the correlation methods treat the two groups alike.  Exchanging
    the groups, (n, a) with (m, b), and changing the sign of c leave the
    regularity factor as it is, so the check passes for the one exactly
    when it passes for the other; the logarithm of the determinant is the
    same; and so is the projected product when the two squared parts and
    the two summed parts are exchanged with the groups. *)
Theorem correlation_methods_symmetric (n m : nat) (a b c : R) q1 q2 s1 s2 :
  0 < regularity_factor n m a b c ->
  [/\ regularity_factor m n b a c = regularity_factor n m a b c
      /\ regularity_factor n m a b (- c) = regularity_factor n m a b c,
      check_regularity m n (b, a, c) = Ok tt
      /\ check_regularity n m (a, b, - c) = Ok tt,
      ln_det_correlation_matrix m n (b, a, c)
      = ln_det_correlation_matrix n m (a, b, c)
      /\ ln_det_correlation_matrix n m (a, b, - c)
         = ln_det_correlation_matrix n m (a, b, c)
    & projected_product_inverse_correlation_matrix_both_sides m n
        ((q2, q1), (s2, s1)) (b, a, c)
      = projected_product_inverse_correlation_matrix_both_sides n m
          ((q1, q2), (s1, s2)) (a, b, c)].
Proof.
move=> reg0.
have sw : regularity_factor m n b a c = regularity_factor n m a b c.
  by rewrite /regularity_factor /=; ring.
have sg : regularity_factor n m a b (- c) = regularity_factor n m a b c.
  by rewrite /regularity_factor /=; ring.
have pass n0 m0 a0 b0 c0 : 0 < regularity_factor n0 m0 a0 b0 c0 ->
    check_regularity n0 m0 (a0, b0, c0) = Ok tt.
  by rewrite /check_regularity leNgt => ->.
split=> //.
- by rewrite !pass ?sw ?sg.
- rewrite /ln_det_correlation_matrix !pass ?sw ?sg //=.
  rewrite -!/(regularity_factor _ _ _ _ _) sw sg; split=> //.
  congr (Ok (fadd _ _)).
  by case: (np_log (1 - a)) => [u|]; case: (np_log (1 - b)) => [v|] //=;
     rewrite addrC.
- case ab : ((a == 1) || (b == 1)).
    rewrite !projected_product_singular_W ?sw //.
    by rewrite orbC.
  move/negbT: ab; rewrite negb_or => /andP[a1 b1].
  rewrite !projected_product_regular ?sw //; congr (Ok (Some _)).
  have a1' : 1 - a != 0 by rewrite subr_eq0 eq_sym.
  have b1' : 1 - b != 0 by rewrite subr_eq0 eq_sym.
  have := reg0; rewrite lt0r => /andP[r0 _].
  rewrite /inv2_val !det2_W !det2_H sw.
  move: (regularity_factor n m a b c) r0 => r r0.
  rewrite /quad2 /mul2 /add2 /=.
  by field; rewrite a1' b1' r0.
Qed.

(* n = m = 2 and (a, b, c) = (1, 0, 0): the regularity factor is 2, and W
   is singular. *)
Lemma projected_product_LinAlgError_witness :
  projected_product_inverse_correlation_matrix_both_sides 2 2
    ((2%:R, 2%:R), (2%:R, 2%:R)) (1, 0, 0)
  = Raise LinAlgError.
Proof.
have reg0 : 0 < regularity_factor 2 2 1 0 0.
  by rewrite /regularity_factor /=; lra.
have [h _] :=
  @projected_product_LinAlgError 2 2 1 0 0 ((2%:R, 2%:R), (2%:R, 2%:R)) reg0.
by apply/h; rewrite eqxx.
Defined.

(* n = m = 2, (a, b, c) = (1/10, 1/5, 1/20) and x = [1, -1, 1, -1], whose
   two groups sum to zero. *)
Lemma projected_product_exact_cases_witness :
  projected_product_inverse_correlation_matrix_both_sides 2 2
    ((2%:R, 2%:R), (0, 0)) (10%:R^-1, 5%:R^-1, 20%:R^-1)
  = Ok (Some (brute_force_product 2 2 10%:R^-1 5%:R^-1 20%:R^-1
                [:: 1; -1; 1; -1])).
Proof.
have reg0 : 0 < regularity_factor 2 2 10%:R^-1 5%:R^-1 20%:R^-1.
  by rewrite /regularity_factor /=; lra.
have a1 : 10%:R^-1 != 1 :> R by rewrite neq_lt; apply/orP; left; lra.
have b1 : 5%:R^-1 != 1 :> R by rewrite neq_lt; apply/orP; left; lra.
have prj : project [:: 1; -1; 1; -1] 2 = Ok ((2%:R, 2%:R), (0, 0)).
  rewrite /project /project_index /= /sum_squares /sum_values.
  rewrite !big_cons !big_nil; congr (Ok ((_, _), (_, _))); ring.
have sz : size [:: 1; -1; 1; -1 : R] = (2 + 2)%N by [].
have [_ h _] := projected_product_exact_cases a1 b1 reg0 sz prj.
exact: h.
Defined.

(* n = m = 2 and (a, b, c) = (1/10, 1/5, 1/20): the check passes and the
   4x4 matrix is invertible. *)
Lemma check_regularity_determinant_witness :
  correlation_matrix 2 2 10%:R^-1 5%:R^-1 20%:R^-1 \in unitmx.
Proof.
have a1 : 10%:R^-1 != 1 :> R by rewrite neq_lt; apply/orP; left; lra.
have b1 : 5%:R^-1 != 1 :> R by rewrite neq_lt; apply/orP; left; lra.
have [_ h _] := @check_regularity_determinant 2 2 _ _ 20%:R^-1 a1 b1.
apply: h; rewrite /check_regularity leNgt.
have -> // : 0 < regularity_factor 2 2 10%:R^-1 5%:R^-1 20%:R^-1.
by rewrite /regularity_factor /=; lra.
Defined.

(* n = 3, m = 2 and (a, b, c) = (1/10, 1/5, 1/20), against n = 2, m = 3
   and (1/5, 1/10, 1/20). *)
Lemma correlation_methods_symmetric_witness :
  ln_det_correlation_matrix 2 3 (5%:R^-1, 10%:R^-1, 20%:R^-1)
  = ln_det_correlation_matrix 3 2 (10%:R^-1, 5%:R^-1, 20%:R^-1).
Proof.
have reg0 : 0 < regularity_factor 3 2 10%:R^-1 5%:R^-1 20%:R^-1.
  by rewrite /regularity_factor /=; lra.
have [_ _ [h _] _] := @correlation_methods_symmetric 3 2 _ _ _ 0 0 0 0 reg0.
exact: h.
Defined.


(* ---------------------------------------------------------------------- *)
(*  Arrays                                                                 *)
(* ---------------------------------------------------------------------- *)

Local Open Scope nat_scope.

Section ArrayFacts.

Variable T : Type.
Implicit Types (a : ndarray T) (p : nat).


Lemma shape_lead_last a :
  0 < ndim a -> shape a = rcons (lead_shape a) (last 0 (shape a)).
Proof.
rewrite /lead_shape /ndim; case/lastP: (shape a) => // sh k _.
by rewrite size_rcons /= last_rcons -{2}cats1 take_size_cat.
Qed.

Lemma ndim_slice_last p a : 0 < ndim a -> ndim (slice_last p a) = ndim a.
Proof.
move=> a0; rewrite /ndim /= size_rcons /lead_shape size_take.
by rewrite /ndim ltn_predL a0 prednK.
Qed.


(* The axes before the last keep their length. *)
Lemma nth_shape_slice_last p a i :
  i.+1 < ndim a -> nth 0 (shape (slice_last p a)) i = nth 0 (shape a) i.
Proof.
move=> lt_i; rewrite /= nth_rcons /lead_shape size_take /ndim.
have a0 : 0 < size (shape a) by apply: leq_ltn_trans lt_i.
by rewrite ltn_predL a0 -ltnS prednK // lt_i nth_take // -ltnS prednK.
Qed.

(* A well-formed array has sections of the length of its last axis. *)
Lemma shape_rows a :
  well_formed a -> 0 < ndim a ->
  seq.shape (rows a)
  = nseq (\prod_(d <- lead_shape a) d) (last 0 (shape a)).
Proof.
move=> /eqP wf a0; apply: reshapeKl; rewrite sumn_nseq wf.
by rewrite [in X in _ <= X](shape_lead_last a0) -cats1 big_cat big_seq1 mulnC.
Qed.

Lemma shape_map_take p (ss : seq (seq T)) (N k : nat) :
  seq.shape ss = nseq N k ->
  seq.shape [seq take p r | r <- ss] = nseq N (minn p k).
Proof.
rewrite /seq.shape => sh_ss.
have -> : [seq size r | r <- [seq take p r | r <- ss]]
          = [seq minn p d | d <- [seq size r | r <- ss]].
  by rewrite -!map_comp; apply: eq_map => r /=; rewrite size_take_min.
by rewrite sh_ss map_nseq.
Qed.


Lemma well_formed_slice_last p a :
  well_formed a -> 0 < ndim a -> well_formed (slice_last p a).
Proof.
move=> wf a0; rewrite /well_formed /= size_flatten.
rewrite (shape_map_take p (shape_rows wf a0)) sumn_nseq.
by rewrite -cats1 big_cat big_seq1 /= mulnC.
Qed.

End ArrayFacts.

(* ---------------------------------------------------------------------- *)
(*  DataBase and DataBaseHDD                                               *)
(* ---------------------------------------------------------------------- *)

Section DataBaseFacts.

Variable param : eqType.
Variable T : Type.
Variables (F_cache_filename DF_cache_filename : string).
Variables (f_boxes_cache_filename df_boxes_cache_filename : nat -> string).
Variable m : nat.
Variables (subclass_f_calculate subclass_df_calculate : seq param -> ndarray T).
Variables (model_f_boxes model_df_boxes : seq param -> nat -> ndarray T).
Variable change_dim : ndarray T -> nat -> nat -> ndarray T.
Variable swapaxes : ndarray T -> nat -> nat -> ndarray T.

Implicit Types (st : db_state param T) (parameters : seq param).
Implicit Types (a J B : ndarray T).

Notation "x <- c1 ;; c2" := (bind c1 (fun x => c2))
  (at level 100, c1 at next level, right associativity).
Notation "c1 ;;; c2" := (bind c1 (fun _ => c2))
  (at level 100, right associativity).

Lemma hdd_get_value_hit st parameters filename calc a :
  hdd_cache st (parameters, filename) = Some a ->
  hdd_get_value parameters filename calc st = (Ok a, st).
Proof. by rewrite /hdd_get_value /bind /get_state /= => ->. Qed.

Lemma hdd_get_value_miss st parameters filename calc a st' :
  hdd_cache st (parameters, filename) = None ->
  calc parameters st = (Ok a, st') ->
  hdd_get_value parameters filename calc st
  = (Ok a, set_hdd_cache
             (update (parameters, filename) a (hdd_cache st')) st').
Proof. by rewrite /hdd_get_value /bind /get_state /= => -> ->. Qed.

Lemma shape_last_ok a : 0 < ndim a -> shape_last a = Ok (last 0 (shape a)).
Proof. by rewrite /shape_last => ->. Qed.


Lemma nth1_last a : ndim a = 2 -> nth 0 (shape a) 1 = last 0 (shape a).
Proof. by rewrite /ndim; case: (shape a) => [|d0 [|d1 [|d2 sh]]]. Qed.





(* The final assertions of f_boxes and df_boxes, as an outcome. *)
Definition checked_boxes (time_dim : nat) (columns : option nat) a
  : result (ndarray T) :=
  if 1 < ndim a then
    if nth 0 (shape a) 1 == time_dim then
      if columns is Some p then
        if last 0 (shape a) == p then Ok a else Raise AssertionError
      else Ok a
    else Raise AssertionError
  else Raise IndexError.

Lemma checked_boxes_ok time_dim columns a d :
  checked_boxes time_dim columns a = Ok d ->
  [/\ d = a, shape_at a 1 = Ok time_dim
    & forall p, columns = Some p -> shape_last a = Ok p].
Proof.
rewrite /checked_boxes /shape_at /shape_last.
case: ifP => // nd; case: eqP => // <-.
have -> : 0 < ndim a by apply: leq_trans nd.
case: columns => [p|]; last by case=> <-.
by case: eqP => // <- [<-]; split=> // _ [<-].
Qed.

(* f_boxes, evaluated. *)
Lemma f_boxes_eval st parameters (time_dim : nat) :
  let calculation_time_dim := maxn time_dim DEFAULT_BOXES_T_DIM in
  let key := (parameters, f_boxes_cache_filename calculation_time_dim) in
  let canonical :=
    if hdd_cache st key is Some c then c
    else model_f_boxes parameters calculation_time_dim in
  let st' :=
    if hdd_cache st key is Some _ then st
    else set_hdd_cache (update key canonical (hdd_cache st))
           (log_call (Call_f_boxes parameters calculation_time_dim) st) in
  f_boxes f_boxes_cache_filename model_f_boxes change_dim parameters time_dim st
  = (checked_boxes time_dim None
       (if time_dim < DEFAULT_BOXES_T_DIM
        then change_dim canonical 1 time_dim else canonical), st').
Proof.
rewrite /f_boxes /hdd_get_value /get_state /f_boxes_calculate.
rewrite /hdd_save_value /modify_state /ret /lift_result /checked_boxes.
rewrite /bind /=.
case: (hdd_cache st _) => [c|] /=; set d := (if time_dim < _ then _ else _);
  rewrite /shape_at /assert_ /ret /raise;
  by case nd : (1 < ndim d) => //=; case et : (nth 0 (shape d) 1 == time_dim).
Qed.

(* df_boxes, evaluated from the array c0 and the state st0 that its
   get_value gives. *)
Lemma df_boxes_eval st parameters (time_dim : nat) c0 st0 :
  let p := size parameters in
  let calculation_time_dim := maxn time_dim DEFAULT_BOXES_T_DIM in
  let key := (parameters, df_boxes_cache_filename calculation_time_dim) in
  let fresh :=
    move_axis_1_last swapaxes (model_df_boxes parameters calculation_time_dim) in
  let save st1 :=
    set_hdd_cache (update key fresh (hdd_cache st1))
      (log_call (Call_df_boxes parameters calculation_time_dim) st1) in
  let resample a :=
    if time_dim < DEFAULT_BOXES_T_DIM then change_dim a 1 time_dim else a in
  hdd_get_value parameters (df_boxes_cache_filename calculation_time_dim)
    (fun p0 => df_boxes_calculate model_df_boxes swapaxes p0
                 calculation_time_dim) st
  = (Ok c0, st0) ->
  df_boxes df_boxes_cache_filename model_df_boxes change_dim swapaxes
    parameters time_dim st
  = if 0 < ndim c0 then
      if p < last 0 (shape c0) then
        (checked_boxes time_dim (Some p) (resample (slice_last p c0)), st0)
      else if last 0 (shape c0) < p then
        (checked_boxes time_dim (Some p) (resample fresh), save st0)
      else (checked_boxes time_dim (Some p) (resample c0), st0)
    else (Raise IndexError, st0).
Proof.
move=> p tcal key fresh save resample hget.
have fin a st1 :
  (t <- lift_result (shape_at a 1) ;;
   assert_ (t == time_dim) ;;;
   n <- lift_result (shape_last a) ;;
   assert_ (n == size parameters) ;;; ret a) st1
  = (checked_boxes time_dim (Some (size parameters)) a, st1).
  rewrite /bind /lift_result /shape_at /shape_last /checked_boxes /assert_.
  case nd : (1 < ndim a) => //=.
  case et : (nth 0 (shape a) 1 == time_dim) => //=.
  rewrite (leq_trans _ nd) //.
  by case ep : (last 0 (shape a) == size parameters).
rewrite /df_boxes {1}/bind hget {1}/bind /lift_result /shape_last.
case nd : (0 < ndim c0) => //.
rewrite {1}/bind -/p.
case lt1 : (p < last 0 (shape c0)); first by rewrite /ret fin.
case lt2 : (last 0 (shape c0) < p); last by rewrite /ret fin.
rewrite /df_boxes_calculate /hdd_save_value /modify_state.
by rewrite {1 2 3}/bind /= fin.
Qed.

Lemma updateE (K : eqType) (V : Type) (k k' : K) (v : V) f :
  update k v f k' = if k' == k then Some v else f k'.
Proof. by []. Qed.

Lemma df_boxes_get_value st parameters (time_dim : nat) :
  let key := (parameters, df_boxes_cache_filename time_dim) in
  let fresh := move_axis_1_last swapaxes (model_df_boxes parameters time_dim) in
  hdd_get_value parameters (df_boxes_cache_filename time_dim)
    (fun p0 => df_boxes_calculate model_df_boxes swapaxes p0 time_dim) st
  = (Ok (if hdd_cache st key is Some c then c else fresh),
     if hdd_cache st key is Some _ then st
     else set_hdd_cache (update key fresh (hdd_cache st))
            (log_call (Call_df_boxes parameters time_dim) st)).
Proof.
move=> key fresh; case hit : (hdd_cache st key) => [c|].
  exact: hdd_get_value_hit.
by rewrite (hdd_get_value_miss (a := fresh)
              (st' := log_call (Call_df_boxes parameters time_dim) st) hit).
Qed.

(** C6: f_boxes and df_boxes work at the time dimension
    max(time_dim, default_boxes_t_dim).  On a miss the model is evaluated
    there and the entry of that time dimension is written with the array
    as computed; on a hit f_boxes leaves the whole state as it was, and so
    does df_boxes unless the cached Jacobian has too few columns, when it
    evaluates the model and overwrites the entry.  What is returned is the
    canonical array (for df_boxes, reconciled with the number of
    parameters), resampled along the time axis by change_dim when time_dim
    is below the default, the entry staying the canonical array.  Whatever
    is returned has a time axis of exactly time_dim, and the call does
    return when the resampled array has the shape the assertions ask for. *)
Theorem boxes_time_dim st parameters (time_dim : nat) :
  let p := size parameters in
  let calculation_time_dim := maxn time_dim DEFAULT_BOXES_T_DIM in
  let kf := (parameters, f_boxes_cache_filename calculation_time_dim) in
  let kdf := (parameters, df_boxes_cache_filename calculation_time_dim) in
  let fresh_f := model_f_boxes parameters calculation_time_dim in
  let fresh_df :=
    move_axis_1_last swapaxes (model_df_boxes parameters calculation_time_dim) in
  let resample a :=
    if time_dim < DEFAULT_BOXES_T_DIM then change_dim a 1 time_dim else a in
  let save st1 :=
    set_hdd_cache (update kdf fresh_df (hdd_cache st1))
      (log_call (Call_df_boxes parameters calculation_time_dim) st1) in
  let stale c := (0 < ndim c) && (last 0 (shape c) < p) in
  let reconcile c :=
    if p < last 0 (shape c) then slice_last p c
    else if last 0 (shape c) < p then fresh_df else c in
  let rf :=
    f_boxes f_boxes_cache_filename model_f_boxes change_dim
      parameters time_dim st in
  let rdf :=
    df_boxes df_boxes_cache_filename model_df_boxes change_dim swapaxes
      parameters time_dim st in
  [/\ (forall d, rf.1 = Ok d -> shape_at d 1 = Ok time_dim)
      /\ (forall d, rdf.1 = Ok d -> shape_at d 1 = Ok time_dim),
      forall c, hdd_cache st kf = Some c ->
        [/\ rf.2 = st, forall d, rf.1 = Ok d -> d = resample c
          & shape_at (resample c) 1 = Ok time_dim -> rf.1 = Ok (resample c)],
      hdd_cache st kf = None ->
        [/\ rf.2 = set_hdd_cache (update kf fresh_f (hdd_cache st))
                     (log_call (Call_f_boxes parameters calculation_time_dim) st),
            forall d, rf.1 = Ok d -> d = resample fresh_f
          & shape_at (resample fresh_f) 1 = Ok time_dim ->
            rf.1 = Ok (resample fresh_f)],
      forall c, hdd_cache st kdf = Some c ->
        [/\ rdf.2 = if stale c then save st else st,
            forall d, rdf.1 = Ok d -> d = resample (reconcile c)
          & 0 < ndim c ->
            shape_at (resample (reconcile c)) 1 = Ok time_dim ->
            shape_last (resample (reconcile c)) = Ok p ->
            rdf.1 = Ok (resample (reconcile c))]
    & hdd_cache st kdf = None ->
        [/\ rdf.2 = if stale fresh_df then save (save st) else save st,
            hdd_cache rdf.2 kdf = Some fresh_df,
            forall d, rdf.1 = Ok d -> d = resample (reconcile fresh_df)
          & 0 < ndim fresh_df ->
            shape_at (resample (reconcile fresh_df)) 1 = Ok time_dim ->
            shape_last (resample (reconcile fresh_df)) = Ok p ->
            rdf.1 = Ok (resample (reconcile fresh_df))]].
Proof.
move=> p tcal kf kdf fresh_f fresh_df resample save stale reconcile rf rdf.
have checked_total t a : shape_at a 1 = Ok t -> checked_boxes t None a = Ok a.
  rewrite /shape_at /checked_boxes; case: ifP => // _ [->].
  by rewrite eqxx.
have checked_columns t a :
    shape_at a 1 = Ok t -> shape_last a = Ok p ->
    checked_boxes t (Some p) a = Ok a.
  rewrite /shape_at /shape_last /checked_boxes; case: ifP => // _ [->].
  by rewrite eqxx; case: ifP => // _ [->]; rewrite eqxx.
have Erf : rf = f_boxes f_boxes_cache_filename model_f_boxes change_dim
                  parameters time_dim st by [].
move: Erf; rewrite f_boxes_eval -/tcal -/kf -/fresh_f => Erf.
(* df_boxes from the array and the state its get_value gives *)
have Erdf c0 st0 :
    hdd_get_value parameters (df_boxes_cache_filename tcal)
      (fun p0 => df_boxes_calculate model_df_boxes swapaxes p0 tcal) st
    = (Ok c0, st0) ->
    [/\ rdf.2 = if stale c0 then save st0 else st0,
        forall d, rdf.1 = Ok d ->
          d = resample (reconcile c0) /\ shape_at d 1 = Ok time_dim
      & 0 < ndim c0 ->
        shape_at (resample (reconcile c0)) 1 = Ok time_dim ->
        shape_last (resample (reconcile c0)) = Ok p ->
        rdf.1 = Ok (resample (reconcile c0))].
  move=> hget; rewrite /rdf (df_boxes_eval hget).
  rewrite -/p -/tcal -/kdf -/fresh_df /stale /reconcile.
  case nd : (0 < ndim c0) => /=; last by split.
  case lt1 : (p < last 0 (shape c0)).
    have -> : (last 0 (shape c0) < p) = false.
      by apply/negbTE; rewrite -leqNgt ltnW.
    split=> //=.
    - by move=> d /checked_boxes_ok [-> ->].
    - by move=> _ h1 h2; rewrite checked_columns.
  case lt2 : (last 0 (shape c0) < p); split=> //=.
  - by move=> d /checked_boxes_ok [-> ->].
  - by move=> _ h1 h2; rewrite checked_columns.
  - by move=> d /checked_boxes_ok [-> ->].
  - by move=> _ h1 h2; rewrite checked_columns.
have hget := df_boxes_get_value st parameters tcal.
move: hget; rewrite /= -/kdf -/fresh_df => hget.
split.
- split=> d h.
    move: Erf => /(congr1 fst) /=; rewrite h => /esym.
    by case/checked_boxes_ok => -> ->.
  by have [_ /(_ d h) []] := Erdf _ _ hget.
- move=> c hit; rewrite Erf hit /=; split=> //.
  + by move=> d /checked_boxes_ok [].
  + exact: checked_total.
- move=> miss; rewrite Erf miss /=; split=> //.
  + by move=> d /checked_boxes_ok [].
  + exact: checked_total.
- move=> c hit; move: hget; rewrite hit => hget.
  have [h1 h2 h3] := Erdf _ _ hget; split=> //.
  by move=> d /h2 [].
- move=> miss; move: hget; rewrite miss => hget.
  have [h1 h2 h3] := Erdf _ _ hget; split=> //.
  + by rewrite h1; case: (stale fresh_df); rewrite /= updateE eqxx.
  + by move=> d /h2 [].
Qed.

End DataBaseFacts.






(* On a fresh object and for time_dim = 6, f_boxes and df_boxes evaluate
   the model at time dimension 12, store what it gives, and return it
   resampled to six time steps. *)
Lemma boxes_time_dim_witness :
  let f_boxes_12 := Example.model_f_boxes Example.parameters 12 in
  let df_boxes_12 :=
    move_axis_1_last Example.swapaxes
      (Example.model_df_boxes Example.parameters 12) in
  let rf :=
    f_boxes (Example.boxes_filename "f_boxes") Example.model_f_boxes
      Example.change_dim Example.parameters 6 Example.empty_state in
  let rdf :=
    df_boxes (Example.boxes_filename "df_boxes") Example.model_df_boxes
      Example.change_dim Example.swapaxes Example.parameters 6
      Example.empty_state in
  [/\ rf.1 = Ok (Example.change_dim f_boxes_12 1 6),
      rf.2 = set_hdd_cache
               (update (Example.parameters, Example.boxes_filename "f_boxes" 12)
                  f_boxes_12 (hdd_cache Example.empty_state))
               (log_call (Call_f_boxes Example.parameters 12)
                  Example.empty_state),
      rdf.1 = Ok (Example.change_dim df_boxes_12 1 6)
    & rdf.2 = set_hdd_cache
                (update
                   (Example.parameters, Example.boxes_filename "df_boxes" 12)
                   df_boxes_12 (hdd_cache Example.empty_state))
                (log_call (Call_df_boxes Example.parameters 12)
                   Example.empty_state)].
Proof.
have [_ _ miss_f _ miss_df] :=
  @boxes_time_dim _ _ (Example.boxes_filename "f_boxes")
    (Example.boxes_filename "df_boxes") Example.model_f_boxes
    Example.model_df_boxes Example.change_dim Example.swapaxes
    Example.empty_state Example.parameters 6.
have [f2 _ f1] := miss_f (erefl _).
have [df2 _ _ df1] := miss_df (erefl _).
split.
- by apply: f1; rewrite /shape_at /= ?unlock.
- exact: f2.
- by apply: df1; rewrite /shape_at /shape_last /= ?unlock.
- exact: df2.
Defined.

Section WOAFacts.

Variable param : eqType.
Variable T : Type.
Variables (f_boxes_cache_filename : nat -> string).
Variables (model_f_boxes : seq param -> nat -> ndarray T).
Variable change_dim : ndarray T -> nat -> nat -> ndarray T.
Variable box_means : ndarray T.
Variable box_nobs_positive : ndarray bool.
Variable box_mean_deviations : ndarray T.
Variables (sub div : T -> T -> T).
Variable one : T.
Variable annual_averaged : ndarray T -> ndarray bool -> T -> ndarray T.

Implicit Types (st : db_state param T) (parameters : seq param).

Notation "x <- c1 ;; c2" := (bind c1 (fun x => c2))
  (at level 100, c1 at next level, right associativity).
Notation "c1 ;;; c2" := (bind c1 (fun _ => c2))
  (at level 100, right associativity).

(* What a read of an entry of the memory cache gives and leaves. *)
Lemma memory_cache_get_value_ret (A : Type) (entry : db_state param T -> option A)
  set_entry (v : A) st :
  memory_cache_get_value entry set_entry (ret v) st
  = (Ok (odflt v (entry st)),
     if entry st is Some _ then st else set_entry (Some v) st).
Proof.
rewrite /memory_cache_get_value /bind /get_state /=.
by case: (entry st).
Qed.

Lemma f_boxes_same_boxes st parameters (time_dim : nat) :
  let st' := (f_boxes f_boxes_cache_filename model_f_boxes change_dim
                parameters time_dim st).2 in
  results_boxes_entry st' = results_boxes_entry st
  /\ mask_entry st' = mask_entry st.
Proof. by rewrite f_boxes_eval /=; case: (hdd_cache st _). Qed.

Lemma mean_deviations_same_boxes st :
  let st' := (WOA_mean_deviations_boxes box_mean_deviations st).2 in
  results_boxes_entry st' = results_boxes_entry st
  /\ mask_entry st' = mask_entry st.
Proof.
rewrite /WOA_mean_deviations_boxes memory_cache_get_value_ret /=.
by case: (mean_deviations_boxes_entry st).
Qed.

Lemma setitem_logical_not (a : ndarray T) mask no_data_value :
  shape mask = shape a ->
  setitem_mask a (logical_not mask) no_data_value
  = Ok (masked_with no_data_value a mask).
Proof.
move=> sh; rewrite /setitem_mask /= sh eqxx /masked_with; congr (Ok (NdArray _ _)).
elim: (data a) (data mask) => [|x xs IH] [|b bs] //=.
by rewrite IH.
Qed.

Lemma diff_boxes_state st parameters normalize no_data_value :
  let rb := odflt box_means (results_boxes_entry st) in
  let mk := odflt box_nobs_positive (mask_entry st) in
  shape mk = shape rb ->
  let st' := (WOA_diff_boxes f_boxes_cache_filename model_f_boxes change_dim
                box_means box_nobs_positive box_mean_deviations sub div
                parameters normalize no_data_value st).2 in
  results_boxes_entry st' = Some (masked_with no_data_value rb mk)
  /\ mask_entry st' = Some mk.
Proof.
move=> rb mk sh st'.
pose P st0 := results_boxes_entry st0 = Some (masked_with no_data_value rb mk)
              /\ mask_entry st0 = Some mk.
rewrite -/(P st') /st' {st'} /WOA_diff_boxes.
rewrite {1}/bind /WOA_results_boxes memory_cache_get_value_ret -/rb.
set st1 := (if results_boxes_entry st is Some _ then _ else _).
have m1 : mask_entry st1 = mask_entry st.
  by rewrite /st1; case: (results_boxes_entry st).
rewrite {1}/bind /WOA_mask memory_cache_get_value_ret m1 -/mk.
set st2 := (if mask_entry st is Some _ then _ else _).
have m2 : mask_entry st2 = Some mk.
  by rewrite /st2 /mk; case e : (mask_entry st) => [x|] /=; rewrite ?m1.
rewrite {1}/bind /lift_result setitem_logical_not //.
rewrite {1}/bind /modify_state.
set st3 := set_results_boxes_entry _ st2.
have P3 : P st3 by [].
rewrite {1}/bind.
have := f_boxes_same_boxes st3 parameters 12.
case: (f_boxes _ _ _ _ _ st3) => -[fb|e] st4 /= [r4 m4].
  have P4 : P st4 by rewrite /P r4 m4.
  rewrite {1}/bind; case: (elementwise _ _ _) => [d|e] //=.
  case: normalize => //.
  rewrite /bind; have := mean_deviations_same_boxes st4.
  case: (WOA_mean_deviations_boxes _ st4) => -[md|e] st5 /= [r5 m5] /=;
    by rewrite /P r5 m5.
by rewrite /P r4 m4.
Qed.


Lemma diff_boxes_value st parameters no_data_value d :
  let rb := odflt box_means (results_boxes_entry st) in
  let mk := odflt box_nobs_positive (mask_entry st) in
  let key := (parameters, f_boxes_cache_filename 12) in
  let canonical :=
    if hdd_cache st key is Some c then c else model_f_boxes parameters 12 in
  shape mk = shape rb ->
  (WOA_diff_boxes f_boxes_cache_filename model_f_boxes change_dim
     box_means box_nobs_positive box_mean_deviations sub div
     parameters false no_data_value st).1 = Ok d ->
  elementwise sub (masked_with no_data_value rb mk) canonical = Ok d.
Proof.
move=> rb mk key canonical sh; rewrite /WOA_diff_boxes.
rewrite {1}/bind /WOA_results_boxes memory_cache_get_value_ret -/rb.
set st1 := (if results_boxes_entry st is Some _ then _ else _).
have m1 : mask_entry st1 = mask_entry st.
  by rewrite /st1; case: (results_boxes_entry st).
have h1 : hdd_cache st1 = hdd_cache st.
  by rewrite /st1; case: (results_boxes_entry st).
rewrite {1}/bind /WOA_mask memory_cache_get_value_ret m1 -/mk.
set st2 := (if mask_entry st is Some _ then _ else _).
have h2 : hdd_cache st2 = hdd_cache st.
  by rewrite /st2; case: (mask_entry st).
rewrite {1}/bind /lift_result setitem_logical_not //.
rewrite {1}/bind /modify_state.
set st3 := set_results_boxes_entry _ st2.
have h3 : hdd_cache st3 = hdd_cache st by [].
rewrite {1}/bind f_boxes_eval /= h3 -/key -/canonical.
rewrite /checked_boxes; case: ifP => // _; case: ifP => // _.
by rewrite /bind /ret; case: (elementwise _ _ _).
Qed.

Lemma results_boxes_hit st (a : ndarray T) :
  results_boxes_entry st = Some a ->
  WOA_results_boxes box_means st = (Ok a, st).
Proof. by move=> h; rewrite /WOA_results_boxes memory_cache_get_value_ret h. Qed.

Lemma mask_hit st mask :
  mask_entry st = Some mask ->
  WOA_mask box_nobs_positive st = (Ok mask, st).
Proof. by move=> h; rewrite /WOA_mask memory_cache_get_value_ret h. Qed.

Lemma setitem_mask_shape (a b : ndarray T) mask v :
  setitem_mask a mask v = Ok b -> shape mask = shape a /\ shape b = shape a.
Proof. by rewrite /setitem_mask; case: eqP => // -> [<-]. Qed.

(** C9: WOA.diff_boxes changes the cached results_boxes array itself.  With
    rb the array that the entry results_boxes holds (the measurement means
    when the entry is not yet there) and mk the mask, after a call, whatever
    its arguments and whether it returned or raised later on, the entry
    holds rb with no_data_value at every position where mk is False: the
    property results_boxes, results_calculate and a later diff_boxes all
    work on that array, and the difference returned is taken from it. *)
Theorem diff_boxes_overwrites_results_boxes st parameters normalize
  no_data_value masked :
  let rb := odflt box_means (results_boxes_entry st) in
  let mk := odflt box_nobs_positive (mask_entry st) in
  let diff_boxes :=
    WOA_diff_boxes f_boxes_cache_filename model_f_boxes change_dim
      box_means box_nobs_positive box_mean_deviations sub div in
  let st' := (diff_boxes parameters normalize no_data_value st).2 in
  setitem_mask rb (logical_not mk) no_data_value = Ok masked ->
  [/\ results_boxes_entry st' = Some masked,
      WOA_results_boxes box_means st' = (Ok masked, st'),
      WOA_results_calculate box_means box_nobs_positive one annual_averaged st'
      = (Ok (annual_averaged masked mk one), st'),
      forall i x0, i < size (data rb) -> i < size (data mk) ->
        nth x0 (data masked) i
        = if nth true (data mk) i then nth x0 (data rb) i else no_data_value
    & (forall d, (diff_boxes parameters false no_data_value st).1 = Ok d ->
        elementwise sub masked
          (if hdd_cache st (parameters, f_boxes_cache_filename 12) is Some c
           then c else model_f_boxes parameters 12) = Ok d)
      /\ forall parameters2 normalize2 no_data_value2,
        exists2 masked2,
          setitem_mask masked (logical_not mk) no_data_value2 = Ok masked2
          & results_boxes_entry
              (diff_boxes parameters2 normalize2 no_data_value2 st').2
            = Some masked2].
Proof.
move=> rb mk diff_boxes st' hset.
have [] := setitem_mask_shape hset; rewrite /= => sh shm.
have := hset; rewrite setitem_logical_not // => -[em].
have [r' m'] := diff_boxes_state parameters normalize no_data_value sh.
rewrite -/rb -/mk em -/diff_boxes -/st' in r' m'.
split=> //.
- exact: results_boxes_hit.
- rewrite /WOA_results_calculate /bind (results_boxes_hit r').
  by rewrite /WOA_get_data_with_annual_averaged /bind (mask_hit m').
- move=> i x0 lt1 lt2; rewrite -em /=.
  rewrite (nth_map (x0, true)) ?size_zip ?leq_min ?lt1 //.
  by rewrite nth_zip_cond size_zip leq_min lt1 lt2 /=; case: (nth true _ i).
split; first by move=> d /(diff_boxes_value sh); rewrite -/rb -/mk em.
move=> p2 n2 v2.
have sh2 : shape (odflt box_nobs_positive (mask_entry st'))
           = shape (odflt box_means (results_boxes_entry st')).
  by rewrite r' m' /= shm.
have [] := diff_boxes_state p2 n2 v2 sh2.
rewrite r' m' /= => e2 _; exists (masked_with v2 masked mk) => //.
by rewrite setitem_logical_not // shm.
Qed.

End WOAFacts.

(* The first diff_boxes of a fresh object, with no_data_value 0: the means
   of the six boxes without observations are gone from the cache. *)
Lemma diff_boxes_overwrites_results_boxes_witness :
  let st' :=
    (WOA_diff_boxes (Example.boxes_filename "f_boxes") Example.model_f_boxes
       Example.change_dim Example.box_means Example.box_nobs_positive
       Example.box_mean_deviations subn divn Example.parameters false 0
       Example.empty_state).2 in
  results_boxes_entry st' = Some Example.masked
  /\ WOA_results_calculate Example.box_means Example.box_nobs_positive
       1 Example.annual_averaged st'
     = (Ok (Example.annual_averaged Example.masked
              Example.box_nobs_positive 1), st').
Proof.
have [h1 _ h3 _ _] :=
  @diff_boxes_overwrites_results_boxes _ _ (Example.boxes_filename "f_boxes")
    Example.model_f_boxes Example.change_dim Example.box_means
    Example.box_nobs_positive Example.box_mean_deviations subn divn 1
    Example.annual_averaged Example.empty_state Example.parameters false 0
    Example.masked (erefl _).
by split; [exact: h1 | exact: h3].
Defined.

Section WODFacts.

Variable param : eqType.
Variable T : Type.
Variables (F_cache_filename DF_cache_filename : string).
Variables (f_boxes_cache_filename df_boxes_cache_filename : nat -> string).
Variable m : nat.
Variables (subclass_f_calculate subclass_df_calculate : seq param -> ndarray T).
Variables (model_f_boxes model_df_boxes : seq param -> nat -> ndarray T).
Variable change_dim : ndarray T -> nat -> nat -> ndarray T.
Variable swapaxes : ndarray T -> nat -> nat -> ndarray T.
Variables (sub div : T -> T -> T).
Variables (pw_results pw_deviations : ndarray T).

Implicit Types (st : db_state param T) (parameters : seq param).

(** C10: no class of data_base.py defines an attribute F and no __init__
    sets one, so the lookup self.F fails for an object of any of the
    classes, while f and F_cache_filename are found in DataBaseHDD for a
    WOD object.  Hence WOD.diff never returns a value, in any state and for
    any arguments; once self.results, which is evaluated first, has given
    the results, the call raises AttributeError for the name F. *)
Theorem WOD_diff_never_returns st parameters normalize_with_deviation :
  let diff :=
    WOD_diff F_cache_filename DF_cache_filename f_boxes_cache_filename
      df_boxes_cache_filename m subclass_f_calculate subclass_df_calculate
      model_f_boxes model_df_boxes change_dim swapaxes sub div
      pw_results pw_deviations in
  [/\ forall c : py_class, getattr c "F" = Raise (AttributeError "F"),
      getattr WOD "f" = Ok (ClassAttribute DataBaseHDD)
      /\ getattr WOD "F_cache_filename" = Ok (ClassAttribute DataBaseHDD),
      forall d, (diff parameters normalize_with_deviation st).1 <> Ok d
    & forall results st1,
        DataBase_results (WOD_results_calculate pw_results) st
        = (Ok results, st1) ->
        diff parameters normalize_with_deviation st
        = (Raise (AttributeError "F"), st1)].
Proof.
move=> diff; split=> //.
- by case.
- move=> d; rewrite /diff /WOD_diff /bind.
  by case: (DataBase_results _ st) => -[r|e] st1.
- by move=> results st1 h; rewrite /diff /WOD_diff /bind h.
Qed.

End WODFacts.

(* On a fresh object the results are read and cached, and the lookup of F
   fails. *)
Lemma WOD_diff_never_returns_witness :
  WOD_diff "F" "DF" (Example.boxes_filename "f_boxes")
    (Example.boxes_filename "df_boxes") 2 Example.F_calculate
    Example.DF_calculate Example.model_f_boxes Example.model_df_boxes
    Example.change_dim Example.swapaxes subn divn Example.pw_results
    Example.pw_deviations Example.parameters false Example.empty_state
  = (Raise (AttributeError "F"),
     set_results_entry (Some Example.pw_results) Example.empty_state).
Proof.
have [_ _ _ h] :=
  @WOD_diff_never_returns _ _ "F" "DF" (Example.boxes_filename "f_boxes")
    (Example.boxes_filename "df_boxes") 2 Example.F_calculate
    Example.DF_calculate Example.model_f_boxes Example.model_df_boxes
    Example.change_dim Example.swapaxes subn divn Example.pw_results
    Example.pw_deviations Example.empty_state Example.parameters false.
exact: (h Example.pw_results
          (set_results_entry (Some Example.pw_results) Example.empty_state)
          (erefl _)).
Defined.

Local Open Scope string_scope.

Section ConfigurationFacts.

Variable options : Type.
Variables (object member_class cost_function data_base_ref : Type).
Variable construct
  : member_class -> kargs object -> cost_function * data_base_ref.

Lemma python_int_error s e :
  python_int s = Raise e ->
  e = ValueError ("invalid literal for int() with base 10: " ++ repr s).
Proof. by rewrite /python_int; case: (int_literal _) => // -[]. Qed.

Lemma dict_get_mem (V : Type) (d : seq (string * V)) key :
  (if dict_get d key is Ok _ then true else false)
  = (key \in [seq kv.1 | kv <- d]).
Proof.
rewrite /dict_get; elim: d => [|[k v] d IH] //=.
by rewrite inE eq_sym; case: eqP.
Qed.

(** C7 (amended): init_data_base raises the ValueError that names the data
    kind and the forms WOA, WOD and WOD. exactly when the upper-cased data
    kind is not WOA and starts neither with WOD nor with OLDWOD; any other
    failure of init_data_base is the assertion on the form of the data
    kind, or the error of int on what follows the dot.  Family.__init__
    looks the upper-cased data kind up among the keys of member_classes: it
    builds the family when that is a key, and otherwise raises the
    ValueError that names the upper-cased data kind and the list of the
    keys. *)
Theorem unknown_data_kind_errors (data_kind : string) (db_kargs : options)
  (member_classes : seq (string * seq (member_class * seq (kargs object))))
  (cf_kargs : kargs object) :
  dict_get cf_kargs "data_kind" = Ok (Str object data_kind) ->
  let keys := [seq kv.1 | kv <- member_classes] in
  [/\ init_data_base data_kind db_kargs
      = Raise (ValueError (unknown_data_kind data_kind))
      <-> [/\ upper data_kind != "WOA",
              ~~ startswith (upper data_kind) "WOD"
            & ~~ startswith (upper data_kind) "OLDWOD"],
      forall e, init_data_base data_kind db_kargs = Raise e ->
        [\/ e = ValueError (unknown_data_kind data_kind),
            e = AssertionError
          | exists s, e = ValueError
              ("invalid literal for int() with base 10: " ++ repr s)],
      upper data_kind \in keys ->
        exists family,
          Family_init construct member_classes cf_kargs = Ok family
    & upper data_kind \notin keys ->
        Family_init construct member_classes cf_kargs
        = Raise (ValueError
                   (unknown_family_data_kind (upper data_kind) keys))].
Proof.
move=> hdk keys; split.
- rewrite /init_data_base; split.
    case: eqP => // _; case: eqP => // _.
    case: ifP => _.
      case: ifP => // _; case e : (python_int _) => [n|x] //= [].
      by rewrite (python_int_error e).
    case: ifP => // _.
    case: ifP => // _; case e : (python_int _) => [n|x] //= [].
    by rewrite (python_int_error e).
  case=> /negbTE-> h1 /negbTE->; rewrite (negbTE h1).
  by case: eqP h1 => // ->.
- move=> e; rewrite /init_data_base.
  case: eqP => // _; case: eqP => // _.
  case: ifP => _.
    case: ifP => [_|_ [<-]]; last by constructor 2.
    case e1 : (python_int _) => [n|x] //= [<-].
    by constructor 3; rewrite (python_int_error e1); eexists.
  case: ifP => [_|_ [<-]]; last by constructor 1.
  case: ifP => [_|_ [<-]]; last by constructor 2.
  case e1 : (python_int _) => [n|x] //= [<-].
  by constructor 3; rewrite (python_int_error e1); eexists.
- move=> hin; rewrite /Family_init hdk /=.
  have := dict_get_mem member_classes (upper data_kind); rewrite hin.
  by case: (dict_get member_classes _) => // l _ /=; eexists.
- move=> hnin; rewrite /Family_init hdk /=.
  have := dict_get_mem member_classes (upper data_kind); rewrite (negbTE hnin).
  by case: (dict_get member_classes _).
Qed.

End ConfigurationFacts.

(* The data kind gls is unknown to init_data_base and to a family with
   the keys OLS and WLS. *)
Lemma unknown_data_kind_errors_witness :
  init_data_base "gls" tt = Raise (ValueError (unknown_data_kind "gls"))
  /\ Family_init Example.construct Example.member_classes
       (Example.cf_kargs "gls")
     = Raise (ValueError
                (unknown_family_data_kind "GLS" [:: "OLS"; "WLS"])).
Proof.
have [h1 _ _ h4] :=
  @unknown_data_kind_errors unit unit string (kargs unit) nat
    Example.construct "gls" tt Example.member_classes
    (Example.cf_kargs "gls") (erefl _).
by split; [apply/h1 | exact: h4].
Defined.

(* C7 as stated fails for init_data_base at WODX, which is none of the
   recognised forms: the assertion fails, no ValueError is raised. *)
Lemma init_data_base_WODX :
  init_data_base "WODX" tt = Raise AssertionError.
Proof. by []. Qed.

Local Close Scope string_scope.

(* ---------------------------------------------------------------------- *)
(*  Further properties of the caches and the accessors                     *)
(* ---------------------------------------------------------------------- *)

Section CacheFacts.

Variable param : eqType.
Variable T : Type.
Variables (F_cache_filename DF_cache_filename : string).
Variables (f_boxes_cache_filename df_boxes_cache_filename : nat -> string).
Variable m : nat.
Variables (subclass_f_calculate subclass_df_calculate : seq param -> ndarray T).
Variables (model_f_boxes model_df_boxes : seq param -> nat -> ndarray T).
Variable change_dim : ndarray T -> nat -> nat -> ndarray T.
Variable swapaxes : ndarray T -> nat -> nat -> ndarray T.

Implicit Types (st : db_state param T) (parameters : seq param).
Implicit Types (a d v J B : ndarray T).

Notation "x <- c1 ;; c2" := (bind c1 (fun x => c2))
  (at level 100, c1 at next level, right associativity).
Notation "c1 ;;; c2" := (bind c1 (fun _ => c2))
  (at level 100, right associativity).




(* The shape of the first p columns of a 2-D array. *)
Lemma shape_slice_last_2d J (p : nat) :
  ndim J = 2 -> p <= last 0 (shape J) ->
  shape (slice_last p J) = [:: nth 0 (shape J) 0; p].
Proof.
rewrite /slice_last /lead_shape /ndim /=.
by case: (shape J) => [|d0 [|d1 [|d2 sh]]] //= _ /minn_idPl ->.
Qed.

(** X8: the Jacobian a df accessor returns has exactly one column per
    parameter.  What DataBaseHDD.df returns has len(parameters) as its
    second dimension, what DataBase.df returns has the shape
    (m, len(parameters)), and what df_boxes returns has len(parameters) as
    its last dimension and time_dim as its second. *)
Theorem df_columns_invariant st parameters (time_dim : nat) d :
  let p := size parameters in
  [/\ (DataBaseHDD_df DF_cache_filename m subclass_df_calculate
         parameters st).1 = Ok d ->
      shape_at d 1 = Ok p,
      (DataBase_df m subclass_df_calculate parameters st).1 = Ok d ->
      shape d = [:: m; p]
    & (df_boxes df_boxes_cache_filename model_df_boxes change_dim swapaxes
         parameters time_dim st).1 = Ok d ->
      shape_last d = Ok p /\ shape_at d 1 = Ok time_dim].
Proof.
move=> p; split.
- rewrite /DataBaseHDD_df /bind.
  case: (hdd_get_value _ _ _ st) => -[df|e] st0 //=.
  rewrite /assert_; case: (_ && _) => //=.
  rewrite /lift_result; case: (shape_last df) => [n|e] //=.
  set r := (if size parameters < n then _ else _).
  case: (r st0) => -[df1|e] st1 //=.
  case e1 : (shape_at df1 1) => [t|e] //=.
  by case: eqP => //= et [<-]; rewrite e1 et.
- rewrite /DataBase_df /bind.
  case: (memory_get_value _ _ _ st) => -[df|e] st0 //=.
  rewrite /assert_; case chk : [&& _, _ & _] => //=.
  case/and3P: chk => /eqP nd /eqP rows; rewrite !inE (nth1_last nd) => cols.
  have df0 : 0 < ndim df by rewrite nd.
  rewrite /lift_result (shape_last_ok df0) -/p.
  case: ltngtP cols => [lt|gt|eq] /=.
  + by move=> _ [<-]; rewrite shape_slice_last_2d ?rows // ltnW.
  + by rewrite (ltn_eqF (leq_trans gt (leq_addr 1 _))).
  + move=> _ [<-]; move: nd rows eq; rewrite /ndim.
    by case: (shape df) => [|d0 [|d1 [|d2 sh]]] //= _ -> ->.
- have [c0 [st0 hget]] : exists c0 st0,
      hdd_get_value parameters
        (df_boxes_cache_filename (maxn time_dim DEFAULT_BOXES_T_DIM))
        (fun p0 => df_boxes_calculate model_df_boxes swapaxes p0
                     (maxn time_dim DEFAULT_BOXES_T_DIM)) st
      = (Ok c0, st0).
    by rewrite df_boxes_get_value; eexists; eexists.
  rewrite (df_boxes_eval change_dim hget).
  have fin a st2 : (checked_boxes time_dim (Some p) a, st2).1 = Ok d ->
      shape_last d = Ok p /\ shape_at d 1 = Ok time_dim.
    move=> /= /checked_boxes_ok [-> h1 h2]; split=> //.
    exact: h2.
  case: ifP => // _; case: ifP => [_|_]; first exact: fin.
  by case: ifP => _; exact: fin.
Qed.


(** X10: the canonical boxes are computed once for all the time
    dimensions they serve.  After a call of f_boxes, whether it returned or
    its assertion failed, a call for the same parameters and any time_dim
    with the same max(time_dim, default_boxes_t_dim), every time_dim up to
    the default among them, finds the entry: it leaves the state as it is,
    with no evaluation of the model, and what it returns is the cached
    canonical array, resampled when time_dim is below the default. *)
Theorem f_boxes_reuses_canonical st parameters (time_dim time_dim2 : nat) :
  let f_boxes :=
    f_boxes f_boxes_cache_filename model_f_boxes change_dim parameters in
  let st1 := (f_boxes time_dim st).2 in
  maxn time_dim2 DEFAULT_BOXES_T_DIM = maxn time_dim DEFAULT_BOXES_T_DIM ->
  exists2 c,
    hdd_cache st1
      (parameters,
       f_boxes_cache_filename (maxn time_dim DEFAULT_BOXES_T_DIM)) = Some c
    & (f_boxes time_dim2 st1).2 = st1
      /\ forall d, (f_boxes time_dim2 st1).1 = Ok d ->
           d = if time_dim2 < DEFAULT_BOXES_T_DIM
               then change_dim c 1 time_dim2 else c.
Proof.
move=> fb st1 emax.
set key := (parameters, _).
have [c hc] : exists c, hdd_cache st1 key = Some c.
  rewrite /st1 /fb f_boxes_eval /= -/key.
  case e : (hdd_cache st key) => [c|]; first by exists c.
  by rewrite /= /update eqxx; eexists.
exists c => //.
rewrite /fb f_boxes_eval /= emax -/key hc; split=> // d.
by case/checked_boxes_ok.
Qed.

(** X11: the property results computes the results once.  When a call has
    returned, every later call in the state it left returns the same
    array and leaves the state, whatever results_calculate would do then;
    and on a DataBase object, whose results_calculate is not implemented,
    the property raises NotImplementedError and caches nothing as long as
    the entry is empty. *)
Theorem results_computed_once st (results_calculate : M param T (ndarray T))
  v st1 :
  (DataBase_results results_calculate st = (Ok v, st1) ->
   forall later : M param T (ndarray T),
     DataBase_results later st1 = (Ok v, st1))
  /\ (results_entry st = None ->
      DataBase_results (@DataBase_results_calculate param T) st
      = (Raise (NotImplementedError "Please implement this method"), st)).
Proof.
split; last first.
  by rewrite /DataBase_results /memory_cache_get_value /bind /get_state /= => ->.
rewrite /DataBase_results /memory_cache_get_value {1 2}/bind /get_state /=.
case e : (results_entry st) => [c|].
  rewrite /bind /ret /assert_ /=; case chk : (ndim c == 1) => //= -[ev est].
  by move=> later; rewrite -est e /= chk /= ev.
rewrite /bind; case: (results_calculate st) => -[c|x] st0 //=.
rewrite /assert_; case chk : (ndim c == 1) => //= -[ev est] later.
by rewrite -est /= chk /= ev.
Qed.

End CacheFacts.


(* Three cached columns for two parameters: what DataBaseHDD.df returns
   has two. *)
Lemma df_columns_invariant_witness :
  shape_at (slice_last 2 Example.wide_DF) 1 = Ok 2.
Proof.
have [h _ _] :=
  @df_columns_invariant _ _ "DF" (Example.boxes_filename "df_boxes") 1
    Example.DF_calculate Example.model_df_boxes Example.change_dim
    Example.swapaxes (Example.cached Example.wide_DF Example.wide_df_boxes)
    Example.parameters 12 (slice_last 2 Example.wide_DF).
by apply: h; rewrite /DataBaseHDD_df /slice_last /rows /= ?unlock.
Defined.


(* On a fresh object the results are computed by the first call, and a
   later call does not compute them again. *)
Lemma results_computed_once_witness :
  let st1 := set_results_entry (Some Example.pw_results) Example.empty_state in
  DataBase_results (@DataBase_results_calculate nat nat) st1
  = (Ok Example.pw_results, st1).
Proof.
have [h _] :=
  @results_computed_once _ _ Example.empty_state
    (WOD_results_calculate Example.pw_results) Example.pw_results
    (set_results_entry (Some Example.pw_results) Example.empty_state).
exact: (h (erefl _)).
Defined.

(* After f_boxes for time_dim = 12 on a fresh object, f_boxes for
   time_dim = 6 leaves the state as it is. *)
Lemma f_boxes_reuses_canonical_witness :
  let f_boxes :=
    f_boxes (Example.boxes_filename "f_boxes") Example.model_f_boxes
      Example.change_dim Example.parameters in
  (f_boxes 6 (f_boxes 12 Example.empty_state).2).2
  = (f_boxes 12 Example.empty_state).2.
Proof.
have [c _ [h _]] :=
  @f_boxes_reuses_canonical _ _ (Example.boxes_filename "f_boxes")
    Example.model_f_boxes Example.change_dim Example.empty_state
    Example.parameters 12 6 (erefl _).
exact: h.
Defined.

(* ---------------------------------------------------------------------- *)
(*  Further properties of init_data_base, Family and the classes           *)
(* ---------------------------------------------------------------------- *)

Local Open Scope string_scope.

Section StringFacts.

Lemma str_chars (s : string) : str (chars s) = s.
Proof. exact: string_of_list_ascii_of_string. Qed.

Lemma chars_str (cs : seq ascii) : chars (str cs) = cs.
Proof. exact: list_ascii_of_string_of_list_ascii. Qed.

Lemma chars_append (s t : string) : chars (s ++ t) = (chars s ++ chars t)%list.
Proof. by elim: s => [|c s IH] //=; rewrite IH. Qed.

Lemma str_cat (cs ds : seq ascii) : str (cs ++ ds)%list = str cs ++ str ds.
Proof. by elim: cs => [|c cs IH] //=; rewrite IH. Qed.

(* Joining what split gave with the separator gives the string back. *)
Lemma split_chars_join (sep : ascii) (cs : seq ascii) :
  match split_chars sep cs with
  | w :: ws => cs = (w ++ flatten [seq sep :: x | x <- ws])%list
  | [::] => False
  end.
Proof.
elim: cs => [|c cs] //=.
case: (split_chars sep cs) => [|w ws] // IH.
by case: eqP => [->|_] /=; rewrite {1}IH.
Qed.

Lemma split_chars_nosep (sep : ascii) (cs : seq ascii) :
  sep \notin cs -> split_chars sep cs = [:: cs].
Proof.
elim: cs => [|c cs IH] //=; rewrite inE negb_or eq_sym => /andP[/negbTE-> nin].
by rewrite IH.
Qed.

Lemma split_chars_cat (sep : ascii) (cs ds : seq ascii) :
  sep \notin cs ->
  split_chars sep (cs ++ sep :: ds)%list = cs :: split_chars sep ds.
Proof.
elim: cs => [|c cs IH] /=; first by rewrite eqxx.
by rewrite inE negb_or eq_sym => /andP[/negbTE-> nin]; rewrite IH.
Qed.

(* the characters of an int literal *)
Lemma digits_value_chars acc after cs n :
  digits_value acc after cs = Some n ->
  all (fun c => is_digit c || (c == "_"%char)) cs.
Proof.
elim: cs acc after => [|c cs IH] acc after //=.
case: ifP => [_ /IH-> //|_].
by case: ifP => // /andP[-> _] /IH->; rewrite orbT.
Qed.

Lemma take_find_spaces (l : seq ascii) :
  all is_space (take (find (predC is_space) l) l).
Proof. by elim: l => [|c l IH] //=; case h : (is_space c) => //=; rewrite h. Qed.

Lemma strip_chars (P : pred ascii) (cs : seq ascii) :
  all P (strip cs) -> all (fun c => is_space c || P c) cs.
Proof.
rewrite /strip all_rev.
set k := find (predC is_space) cs; set d := drop k cs.
set k' := find (predC is_space) (rev cs) => h.
have sp : all is_space (take k' (rev d)).
  have := take_find_spaces (rev cs); rewrite -/k'.
  rewrite -{1}(cat_take_drop k cs) -/d rev_cat take_cat.
  case: ltnP => [//|le]; rewrite all_cat => /andP[spd _].
  by rewrite take_oversize.
have hd : all (fun c => is_space c || P c) (rev d).
  rewrite -(cat_take_drop k' (rev d)) all_cat; apply/andP; split.
    by apply/allP => c hc; rewrite (allP sp c hc).
  by apply/allP => c hc; rewrite (allP h c hc) orbT.
rewrite -(cat_take_drop k cs) all_cat; apply/andP; split.
  by apply/allP => c hc; rewrite (allP (take_find_spaces cs) c hc).
by rewrite -/d -all_rev.
Qed.

Lemma int_literal_chars (cs : seq ascii) n :
  int_literal cs = Some n ->
  all (fun c => is_space c
                || [|| c == "-"%char, c == "+"%char, is_digit c
                     | c == "_"%char]) cs.
Proof.
rewrite /int_literal => h; apply: strip_chars.
case: (strip cs) h => [|c l] //.
case: ifP => [/eqP-> |_].
  case e : (digits_value _ _ _) => [k|] // _.
  rewrite /= (sub_all _ (digits_value_chars e)) // => x /=.
  by case/orP=> ->; rewrite ?orbT.
case: ifP => [/eqP-> |_].
  case e : (digits_value _ _ _) => [k|] // _.
  rewrite /= (sub_all _ (digits_value_chars e)) // => x /=.
  by case/orP=> ->; rewrite ?orbT.
case e : (digits_value _ _ _) => [k|] // _.
rewrite (sub_all _ (digits_value_chars e)) // => x /=.
by case/orP=> ->; rewrite ?orbT.
Qed.

Lemma python_int_no_dot (s : string) n :
  python_int s = Ok n -> "."%char \notin chars s.
Proof.
rewrite /python_int; case e : (int_literal _) => [k|] // _.
apply/negP => /(allP (int_literal_chars e)).
by [].
Qed.


(* What split gives for two parts, the first one as expected. *)
Lemma str_split_two (s : string) (first : string) :
  size (str_split s "."%char) == 2 ->
  nth "" (str_split s "."%char) 0 = first ->
  s = first ++ String "."%char (nth "" (str_split s "."%char) 1).
Proof.
rewrite /str_split; have := split_chars_join "."%char (chars s).
case: (split_chars _ _) => [|w [|x [|y ws]]] //= e _ <-.
by rewrite -[LHS]str_chars e cats0 str_cat.
Qed.

Lemma str_split_prefix (first s : string) :
  "."%char \notin chars first -> "."%char \notin chars s ->
  str_split (first ++ String "."%char s) "."%char = [:: first; s].
Proof.
move=> n1 n2; rewrite /str_split chars_append /= split_chars_cat //.
by rewrite split_chars_nosep //= !str_chars.
Qed.

Lemma upper_append (s t : string) : upper (s ++ t) = upper s ++ upper t.
Proof. by rewrite /upper chars_append map_cat str_cat. Qed.

End StringFacts.

Section InitDataBaseFacts.

Variable options : Type.

(** X15: init_data_base returns an object exactly for the following data
    kinds.  WOA and WOD in any mix of upper and lower case give a WOA and
    a WOD object; the string WOD. or OLDWOD. in upper case, followed by an
    integer literal n, gives a WOD_TMM or an OLDWOD_TMM object with
    max_land_boxes = n.  Any other data kind raises, the forms with a dot
    written in lower case among them. *)
Theorem init_data_base_returns (data_kind : string) (db_kargs : options) r :
  init_data_base data_kind db_kargs = Ok r <->
  [\/ upper data_kind = "WOA" /\ r = New_WOA db_kargs,
      upper data_kind = "WOD" /\ r = New_WOD db_kargs,
      exists s n, [/\ data_kind = "WOD." ++ s, python_int s = Ok n
                    & r = New_WOD_TMM n db_kargs]
    | exists s n, [/\ data_kind = "OLDWOD." ++ s, python_int s = Ok n
                    & r = New_OLDWOD_TMM n db_kargs]].
Proof.
split.
- rewrite /init_data_base.
  case: eqP => [e [<-]|_]; first by constructor 1.
  case: eqP => [e [<-]|_]; first by constructor 2.
  case: ifP => _.
    case: ifP => // /andP[sz /eqP first].
    case e : (python_int _) => [n|x] //= [<-].
    constructor 3; exists (nth "" (str_split data_kind "."%char) 1), n.
    by split=> //; rewrite {1}(str_split_two sz first).
  case: ifP => // _.
  case: ifP => // /andP[sz /eqP first].
  case e : (python_int _) => [n|x] //= [<-].
  constructor 4; exists (nth "" (str_split data_kind "."%char) 1), n.
  by split=> //; rewrite {1}(str_split_two sz first).
- case.
  + by case=> e ->; rewrite /init_data_base e eqxx.
  + by case=> e ->; rewrite /init_data_base e /=.
  + case=> s [n [-> hint ->]]; rewrite /init_data_base.
    rewrite (upper_append "WOD." s).
    have -> : "WOD." ++ s = "WOD" ++ String "."%char s by [].
    rewrite (str_split_prefix (first := "WOD") isT (python_int_no_dot hint)).
    by rewrite /= hint.
  + case=> s [n [-> hint ->]]; rewrite /init_data_base.
    rewrite (upper_append "OLDWOD." s).
    have -> : "OLDWOD." ++ s = "OLDWOD" ++ String "."%char s by [].
    rewrite (str_split_prefix (first := "OLDWOD") isT
               (python_int_no_dot hint)).
    by rewrite /= hint.
Qed.

End InitDataBaseFacts.

(* The data kind WOD.3 gives a WOD_TMM object, wod.3 fails the assertion. *)
Lemma init_data_base_returns_witness :
  init_data_base "WOD.3" tt = Ok (New_WOD_TMM 3 tt)
  /\ init_data_base "wod.3" tt = Raise AssertionError.
Proof.
split; last by [].
apply/init_data_base_returns; constructor 3.
by exists "3", 3.
Defined.

Local Close Scope string_scope.

Local Open Scope string_scope.

Section FamilyFacts.

Variables (object member_class cost_function data_base_ref : Type).
Variable construct
  : member_class -> kargs object -> cost_function * data_base_ref.
Variables (State A : Type).

Notation member := (member cost_function data_base_ref).

(** X12: the members of a family are the objects that the member classes
    of the data kind build, one for each of their additional arguments and
    in that order, and all of them hold the data base of the first member:
    the data bases the other members were built with are dropped. *)
Theorem Family_shares_data_base
  (member_classes : seq (string * seq (member_class * seq (kargs object))))
  (cf_kargs : kargs object) (data_kind : string) l family d0 :
  dict_get cf_kargs "data_kind" = Ok (Str object data_kind) ->
  dict_get member_classes (upper data_kind) = Ok l ->
  Family_init construct member_classes cf_kargs = Ok family ->
  [seq member_object x | x <- family] = [seq od.1 | od <- built construct cf_kargs l]
  /\ [seq member_data_base x | x <- family]
     = nseq (size (built construct cf_kargs l))
         (head d0 [seq od.2 | od <- built construct cf_kargs l]).
Proof.
move=> hdk hl; rewrite /Family_init hdk /= hl /=.
set fam0 := flatten _.
have -> : fam0 = [seq Member od.1 od.2 | od <- built construct cf_kargs l].
  rewrite /fam0 /built map_flatten -!map_comp; congr flatten.
  apply: eq_map => ma /=; rewrite -map_comp; apply: eq_map => ak /=.
  by case: (construct _ _).
case: (built construct cf_kargs l) => [|[o d] b] /= [<-] //=.
by split; congr (_ :: _); elim: b => //= x b ->.
Qed.

(** X13: Family.get_function_value calls the function on the first member
    and then on every member, the first one again among them, and returns
    the value of the first call.  For a function that does not raise, the
    state it changes is the one left by these len(family) + 1 calls in
    that order; on an empty family the call raises IndexError; and when
    the first call raises, its exception comes out with no further call. *)
Theorem get_function_value_calls (family : seq member)
  (val : member -> State -> A) (step : member -> State -> State)
  (function : member -> State -> result A * State) (st : State) :
  [/\ get_function_value family (fun x s => (Ok (val x s), step x s)) st
      = if family is first :: _
        then (Ok (val first st),
              foldl (fun s x => step x s) (step first st) family)
        else (Raise IndexError, st),
      get_function_value [::] function st = (Raise IndexError, st)
    & forall first rest e st',
        function first st = (Raise e, st') ->
        get_function_value (first :: rest) function st = (Raise e, st')].
Proof.
split=> //; last first.
  by move=> first rest e st' /=; case: (function first st) => -[v|x] s // [-> ->].
case: family => [|first rest] //.
rewrite /get_function_value.
have each l s : for_each (fun x s0 => (Ok (val x s0), step x s0)) l s
                = (Ok tt, foldl (fun s0 x => step x s0) s l).
  by elim: l s => [|x l IH] s //=.
by rewrite each.
Qed.

End FamilyFacts.

(** X14: no class of data_base.py defines get_file and no __init__ sets
    it.  So WOD.correlation_parameters, which WOD defines and OLDWOD
    inherits, returns for no object and no arguments: once the file name
    constant is imported, the lookup of get_file raises AttributeError. *)
Theorem correlation_parameters_never_returns (A : Type) (c : py_class)
  (filename : result string) (call_get_file : attribute -> string -> result A) :
  [/\ getattr WOD "correlation_parameters" = Ok (ClassAttribute WOD)
      /\ getattr OLDWOD "correlation_parameters" = Ok (ClassAttribute WOD),
      forall k : py_class, getattr k "get_file" = Raise (AttributeError "get_file"),
      forall v, WOD_correlation_parameters c filename call_get_file <> Ok v
    & forall name, filename = Ok name ->
        WOD_correlation_parameters c filename call_get_file
        = Raise (AttributeError "get_file")].
Proof.
have nofile (k : py_class) : getattr k "get_file" = Raise (AttributeError "get_file").
  by case: k.
split=> //.
- by move=> v; rewrite /WOD_correlation_parameters; case: filename => //= s; rewrite nofile.
- by move=> name ->; rewrite /WOD_correlation_parameters /= nofile.
Qed.

Lemma Family_shares_data_base_witness :
  [seq member_data_base x
  | x <- if Family_init Example.construct Example.member_classes
              (Example.cf_kargs "wls") is Ok family then family else [::]]
  = [:: 2; 2].
Proof.
have [_ h] :=
  @Family_shares_data_base unit string (kargs unit) nat Example.construct
    Example.member_classes (Example.cf_kargs "wls") "wls"
    [:: ("WLS", [:: [::]]); ("LWLS", [:: [::]])]
    [:: Member (Example.cf_kargs "wls") 2; Member (Example.cf_kargs "wls") 2]
    0 (erefl _) (erefl _) (erefl _).
exact: h.
Defined.

Lemma correlation_parameters_never_returns_witness :
  WOD_correlation_parameters OLDWOD (Ok "correlation_parameters.txt")
    (fun _ _ => Ok tt)
  = Raise (AttributeError "get_file").
Proof.
have [_ _ _ h] :=
  @correlation_parameters_never_returns unit OLDWOD
    (Ok "correlation_parameters.txt") (fun _ _ => Ok tt).
exact: (h _ (erefl _)).
Defined.

(* Two members and a function that counts its calls: three calls, and the
   value of the first. *)
Lemma get_function_value_calls_witness :
  get_function_value [:: Member 0 0; Member 1 1]
    (fun (x : member nat nat) (s : nat) => (Ok (member_object x + s), s.+1)) 0
  = (Ok 0, 3).
Proof.
have [h _ _] :=
  @get_function_value_calls nat nat nat nat [:: Member 0 0; Member 1 1]
    (fun x s => member_object x + s) (fun _ s => s.+1)
    (fun _ s => (Raise IndexError, s)) 0.
exact: h.
Defined.

Local Close Scope string_scope.

(* ---------------------------------------------------------------------- *)
(*  Further properties of the deviations on the boxes                      *)
(* ---------------------------------------------------------------------- *)

Section DeviationsBoxesFacts.

Variable T : Type.
Variable deviation_TMM : nat -> ndarray T.
Variable inverse : T -> T.
Variable change_dim : ndarray T -> nat -> nat -> ndarray T.

Implicit Types (cache : boxes_cache T) (a : ndarray T).

Lemma deviations_boxes_calculate_time_axis (time_dim : nat) a :
  deviations_boxes_calculate deviation_TMM change_dim time_dim = Ok a ->
  shape_at a 1 = Ok time_dim.
Proof.
rewrite /deviations_boxes_calculate.
set d := (if time_dim < _ then _ else _).
by case e : (shape_at d 1) => [t|x] //=; case: eqP => // <- [<-].
Qed.

Lemma deviations_boxes_time_axes (time_dim : nat) cache :
  time_axes_match cache ->
  time_axes_match (deviations_boxes deviation_TMM change_dim time_dim cache).2
  /\ forall a,
       (deviations_boxes deviation_TMM change_dim time_dim cache).1 = Ok a ->
       shape_at a 1 = Ok time_dim.
Proof.
move=> inv; rewrite /deviations_boxes.
case hit : (deviations_boxes_entry cache time_dim) => [v|] /=.
  by split=> // a [<-]; apply: inv; left.
case e : (deviations_boxes_calculate _ _ _) => [v|x] /=; last by split.
have hv := deviations_boxes_calculate_time_axis e.
split; last by move=> a [<-].
move=> t a /= [|h]; last by apply: inv; right.
rewrite /update; case: eqP => [-> [<-] //|_ h].
by apply: inv; left.
Qed.

(** X16: deviations_boxes and inverse_deviations_boxes keep their caches
    in step with the time dimension.  When every cached array has the
    time axis of its entry, this is so again after a call of either, what
    a call returns has a time axis of exactly the requested time_dim, and
    a call of deviations_boxes that raises leaves the cache as it was:
    the assertion on the time axis comes before the value is cached. *)
Theorem deviations_boxes_invariant (time_dim : nat) cache :
  let deviations := deviations_boxes deviation_TMM change_dim time_dim cache in
  let inverse_deviations :=
    inverse_deviations_boxes deviation_TMM inverse change_dim time_dim cache in
  time_axes_match cache ->
  [/\ time_axes_match deviations.2 /\ time_axes_match inverse_deviations.2,
      forall a, deviations.1 = Ok a -> shape_at a 1 = Ok time_dim,
      forall a, inverse_deviations.1 = Ok a -> shape_at a 1 = Ok time_dim
    & forall e, deviations.1 = Raise e -> deviations.2 = cache].
Proof.
move=> dev inv_dev inv.
have [inv1 ret1] := deviations_boxes_time_axes time_dim inv.
split=> //.
- split=> //; rewrite /inv_dev /inverse_deviations_boxes.
  case hit : (inverse_deviations_boxes_entry cache time_dim) => [v|] //=.
  move: inv1 ret1.
  case: (deviations_boxes _ _ _ _) => -[d|x] cache1 //= inv1 ret1.
  move=> t a /= [h|]; first by apply: inv1; left.
  rewrite /update; case: eqP => [-> [<-]|_ h]; last by apply: inv1; right.
  by have := ret1 d (erefl _); rewrite /shape_at.
- rewrite /inv_dev /inverse_deviations_boxes.
  case hit : (inverse_deviations_boxes_entry cache time_dim) => [v|] /=.
    by move=> a [<-]; apply: inv; right.
  move: ret1; case: (deviations_boxes _ _ _ _) => -[d|x] cache1 //= ret1.
  by move=> a [<-]; have := ret1 d (erefl _); rewrite /shape_at.
- rewrite /dev /deviations_boxes.
  case: (deviations_boxes_entry cache time_dim) => [v|] //=.
  by case: (deviations_boxes_calculate _ _ _).
Qed.

End DeviationsBoxesFacts.

(* On an empty cache and for time_dim = 6, the deviations of shape (1, 12)
   are resampled to six time steps and cached under 6. *)
Lemma deviations_boxes_invariant_witness :
  let deviation_TMM := fun t => Example.model_f_boxes Example.parameters t in
  shape_at
    (Example.change_dim (deviation_TMM 12) 1 6) 1 = Ok 6
  /\ forall a,
       (deviations_boxes deviation_TMM Example.change_dim 6
          (BoxesCache (fun _ => None) (fun _ => None))).1 = Ok a ->
       shape_at a 1 = Ok 6.
Proof.
have inv : time_axes_match (BoxesCache (fun _ : nat => @None (ndarray nat))
                              (fun _ => None)).
  by move=> t a [].
have [_ h _ _] :=
  @deviations_boxes_invariant nat
    (fun t => Example.model_f_boxes Example.parameters t) id
    Example.change_dim 6 _ inv.
by split; [rewrite /shape_at /= | exact: h].
Defined.
